(** * evcc: Amtron and FritzDECT charger drivers, and the edge gateway

    A shallow embedding of

      - charger/amtron_professional.go  (module [AmtronProfessional]),
      - charger/amtron_prof.go          (module [AmtronProf]),
      - the FritzDECT charger           (module [FritzDECT]),
      - the edge request gateway        (module [edge]),

    together with the pieces of the Go runtime and standard library these
    files rely on (module [Go]) and the device connections they talk to
    (modules [modbus] and [fritzdect]).

    Conventions.  A Go [uintN] is a [Z] kept in range by an explicit
    wrap-around; a [[]byte] is a [list byte]; a Go [(value, error)] pair is
    a pair whose second component is an [option error] ([None] is [nil]);
    a run-time panic or a call of [os.Exit] is an explicit outcome of the
    [run] type.  Device connections carry the history of the requests made
    on them, so that "no device I/O" is the statement that the history did
    not change. *)

From Stdlib Require Import ZArith List String Ascii Bool Lia.
From Stdlib.Strings Require Import Byte.
From Stdlib Require Import DecimalString Floats Uint63.
From stdpp Require Import base list.
Import ListNotations.

Local Open Scope Z_scope.

(* ================================================================== *)
(** * Go: runtime and standard library                                  *)
(* ================================================================== *)

Module Go.

(** ** Errors

    Go errors are compared by identity: the sentinels [io.EOF] and
    [api.ErrNotAvailable] are values of their own, every other error is
    an [errors.New]/[fmt.Errorf] value carrying its text. *)
Inductive error : Type :=
| EOF
| ErrNotAvailable
| errorString (s : string).

(** Modelled from the spec: the declaration of [api.ErrNotAvailable] is
    in package api, which is not among the sources; its text is the
    spec's "not available".  [Error e] is [err.Error()]. *)
Definition Error (e : error) : string :=
  match e with
  | EOF => "EOF"
  | ErrNotAvailable => "not available"
  | errorString s => s
  end.

(** ** Outcomes of running Go code: a value, a panic, or [os.Exit] *)
Inductive run (A : Type) : Type :=
| Done (a : A)
| Panic (why : string)
| Exit (code : Z).
Arguments Done {A} a.
Arguments Panic {A} why.
Arguments Exit {A} code.

Definition bind {A B} (m : run A) (k : A -> run B) : run B :=
  match m with
  | Done a => k a
  | Panic w => Panic w
  | Exit c => Exit c
  end.

Declare Scope go_scope.
Delimit Scope go_scope with go.
Notation "'let!' x ':=' m 'in' k" := (bind m (fun x => k))
  (at level 10, x name, m at level 100, k at level 200) : go_scope.

(** ** Stateful Go code: a state threaded through code that may panic *)
Definition io (S A : Type) : Type := S -> run (A * S).

Definition io_ret {S A} (a : A) : io S A := fun s => Done (a, s).

Definition io_bind {S A B} (m : io S A) (k : A -> io S B) : io S B :=
  fun s =>
    match m s with
    | Done (a, s') => k a s'
    | Panic w => Panic w
    | Exit c => Exit c
    end.

Definition io_get {S} : io S S := fun s => Done (s, s).
Definition io_put {S} (s : S) : io S unit := fun _ => Done (tt, s).

(** code that only may panic, run inside stateful code *)
Definition io_lift {S A} (m : run A) : io S A :=
  fun s => bind m (fun a => Done (a, s)).

(** run code written against a component [T] of the state [S] *)
Definition io_zoom {S T A} (get : S -> T) (set : T -> S -> S)
    (m : io T A) : io S A :=
  fun s =>
    match m (get s) with
    | Done (a, t) => Done (a, set t s)
    | Panic w => Panic w
    | Exit c => Exit c
    end.

Notation "'let*' x ':=' m 'in' k" := (io_bind m (fun x => k))
  (at level 10, x name, m at level 100, k at level 200) : go_scope.
Notation "'let*' ' p ':=' m 'in' k" :=
  (io_bind m (fun x => match x with p => k end))
  (at level 10, p pattern, m at level 100, k at level 200) : go_scope.

(** ** Fixed-width integers *)
Definition uint16 (z : Z) : Z := z mod 2 ^ 16.
Definition uint32 (z : Z) : Z := z mod 2 ^ 32.
Definition int32 (z : Z) : Z := (z + 2 ^ 31) mod 2 ^ 32 - 2 ^ 31.

(** the numeric value of a byte *)
Definition u8 (x : byte) : Z := Z.of_N (Byte.to_N x).

Definition len {A} (l : list A) : Z := Z.of_nat (List.length l).

(** [b[i]]: an index out of range panics *)
Definition index (b : list byte) (i : nat) : run byte :=
  match nth_error b i with
  | Some x => Done x
  | None => Panic "index out of range"
  end.

(** [b[i:]] *)
Definition slice_from (b : list byte) (i : nat) : run (list byte) :=
  if (i <=? List.length b)%nat then Done (skipn i b)
  else Panic "slice bounds out of range".

(** ** encoding/binary *)
Module binary.

(** [binary.LittleEndian.Uint16]:
    [_ = b[1]; return uint16(b[0]) | uint16(b[1])<<8] *)
Definition LittleEndian_Uint16 (b : list byte) : run Z :=
  (let! _hint := index b 1 in
   let! b0 := index b 0 in
   let! b1 := index b 1 in
   Done (Z.lor (u8 b0) (uint16 (Z.shiftl (u8 b1) 8))))%go.

(** [binary.BigEndian.Uint16]:
    [_ = b[1]; return uint16(b[1]) | uint16(b[0])<<8] *)
Definition BigEndian_Uint16 (b : list byte) : run Z :=
  (let! _hint := index b 1 in
   let! b0 := index b 0 in
   let! b1 := index b 1 in
   Done (Z.lor (u8 b1) (uint16 (Z.shiftl (u8 b0) 8))))%go.

End binary.

(** ** bytes.Equal *)
Fixpoint bytes_Equal (a b : list byte) : bool :=
  match a, b with
  | [], [] => true
  | x :: a', y :: b' => Byte.eqb x y && bytes_Equal a' b'
  | _, _ => false
  end.

(** the double quote character, as a string *)
Definition dquote : string := String (ascii_of_nat 34) EmptyString.

(** ** strconv.ParseBool

    accepts 1, t, T, TRUE, true, True and 0, f, F, FALSE, false, False;
    any other string is a syntax error, reported with the string in
    quotes. *)
Definition ParseBool (s : string) : bool * option error :=
  if (String.eqb s "1" || String.eqb s "t" || String.eqb s "T"
      || String.eqb s "TRUE" || String.eqb s "true" || String.eqb s "True")%bool
  then (true, None)
  else if (String.eqb s "0" || String.eqb s "f" || String.eqb s "F"
      || String.eqb s "FALSE" || String.eqb s "false" || String.eqb s "False")%bool
  then (false, None)
  else (false,
        Some (errorString
                ("strconv.ParseBool: parsing " ++ dquote ++ s ++ dquote
                 ++ ": invalid syntax"))).

(** ** fmt: the verb %d *)
Definition fmt_d (z : Z) : string := NilZero.string_of_int (Z.to_int z).

(** %d of a byte slice: [[1 2 3]] *)
Fixpoint fmt_d_elems (b : list byte) : string :=
  match b with
  | [] => ""
  | [x] => fmt_d (u8 x)
  | x :: b' => fmt_d (u8 x) ++ " " ++ fmt_d_elems b'
  end.

Definition fmt_d_bytes (b : list byte) : string :=
  "[" ++ fmt_d_elems b ++ "]".

(** ** float64 *)
Definition float64 : Set := PrimFloat.float.

(** conversion of an unsigned integer below 2^63 *)
Definition float64_of_uint (z : Z) : float64 :=
  PrimFloat.of_uint63 (Uint63.of_Z z).

End Go.

Import Go.
Local Open Scope go_scope.

(* ================================================================== *)
(** * api: the vocabulary shared by chargers and loadpoints            *)
(* ================================================================== *)

Module api.

(** Modelled from the spec: package api is not among the sources.
    [api.ChargeStatus] has the connector states A to F of the spec and
    [StatusNone] for none of them. *)
Inductive ChargeStatus : Set :=
| StatusNone | StatusA | StatusB | StatusC | StatusD | StatusE | StatusF.

(** [string(s)] *)
Definition ChargeStatus_string (s : ChargeStatus) : string :=
  match s with
  | StatusNone => ""
  | StatusA => "A" | StatusB => "B" | StatusC => "C"
  | StatusD => "D" | StatusE => "E" | StatusF => "F"
  end.

(** Modelled from the spec: [api.ChargeMode] is a string type (the
    gateway converts a string to it); its four constants are the
    spec's charge modes off, now, minpv and pv. *)
Definition ChargeMode : Set := string.
Definition ModeOff : ChargeMode := "off"%string.
Definition ModeNow : ChargeMode := "now"%string.
Definition ModeMinPV : ChargeMode := "minpv"%string.
Definition ModePV : ChargeMode := "pv"%string.

Definition chargeModes : list ChargeMode := [ModeOff; ModeNow; ModeMinPV; ModePV].

Definition is_chargeMode (m : ChargeMode) : bool :=
  existsb (String.eqb m) chargeModes.

End api.

(* ================================================================== *)
(** * modbus: a register device behind a connection                    *)
(* ================================================================== *)

Module modbus.

Inductive request : Set :=
| ReadHolding (address quantity : Z)
| WriteSingle (address value : Z).

(** A connection is the device at its far end, which answers a request
    knowing every earlier one, and the requests made so far, most recent
    first. *)
Record Connection : Type := {
  device : list request -> request -> list byte * option error;
  history : list request
}.

Definition roundtrip (r : request) : io Connection (list byte * option error) :=
  fun c =>
    Done (device c (history c) r,
          {| device := device c; history := r :: history c |}).

Definition ReadHoldingRegisters (address quantity : Z) :=
  roundtrip (ReadHolding address quantity).

Definition WriteSingleRegister (address value : Z) :=
  roundtrip (WriteSingle address value).

End modbus.

(* ================================================================== *)
(** * charger: what the two Amtron drivers share                       *)
(* ================================================================== *)

Module charger.

(** [toUint32], the same function in amtron_professional.go and
    amtron_prof.go *)
Definition toUint32 (b : list byte) : run Z :=
  if len b <? 4 then Done 0
  else
    let! lo := binary.LittleEndian_Uint16 b in
    let! rest := slice_from b 2 in
    let! hi := binary.BigEndian_Uint16 rest in
    Done (uint32 (uint32 (uint16 (lo * 256)) + uint32 hi)).

End charger.

(* ================================================================== *)
(** * charger/amtron_professional.go                                    *)
(* ================================================================== *)

Module AmtronProfessional.

Import charger.

(** the driver: its connection and the current to restore on enable,
    a [uint16] *)
Record AmtronProfessional : Type := {
  conn : modbus.Connection;
  curr : Z
}.

Definition amtronProfessionalRegEnergy : Z := 200.
Definition amtronProfessionalRegCurrent : Z := 212.
Definition amtronProfessionalRegPower : Z := 206.
Definition amtronProfessionalRegStatus : Z := 122.
Definition amtronProfessionalRegAmpsConfig : Z := 1000.
Definition amtronProfessionalRegEVCCID : Z := 741.

(** [wb.conn.…]: a call on the driver's connection *)
Definition on_conn {A} (m : io modbus.Connection A) : io AmtronProfessional A :=
  io_zoom conn (fun c wb => {| conn := c; curr := curr wb |}) m.

(** [wb.curr = v] *)
Definition set_curr (v : Z) : io AmtronProfessional unit :=
  fun wb => Done (tt, {| conn := conn wb; curr := v |}).

(** [NewAmtronProfessional], given what [modbus.NewConnection] returned *)
Definition NewAmtronProfessional (dial : modbus.Connection + error)
  : option AmtronProfessional * option error :=
  match dial with
  | inr err => (None, Some err)
  | inl c => (Some {| conn := c; curr := 6 |}, None)
  end.

Definition Status : io AmtronProfessional (api.ChargeStatus * option error) :=
  let* '(b, err) :=
    on_conn (modbus.ReadHoldingRegisters amtronProfessionalRegStatus 1) in
  match err with
  | Some e => io_ret (api.StatusNone, Some e)
  | None =>
    let* x := io_lift (index b 1) in
    io_ret
      (match u8 x with
       | 1 => (api.StatusA, None)
       | 2 => (api.StatusB, None)
       | 3 => (api.StatusC, None)
       | 4 => (api.StatusD, None)
       | 5 => (api.StatusE, None)
       | 6 => (api.StatusF, None)
       | _ => (api.StatusNone,
               Some (errorString ("invalid status: " ++ fmt_d_bytes b)))
       end)
  end.

Definition Enabled : io AmtronProfessional (bool * option error) :=
  let* '(b, err) :=
    on_conn (modbus.ReadHoldingRegisters amtronProfessionalRegAmpsConfig 1) in
  match err with
  | Some e => io_ret (false, Some e)
  | None =>
    let* u := io_lift (binary.BigEndian_Uint16 b) in
    io_ret (negb (u =? 0), None)
  end.

Definition MaxCurrent (current : Z) : io AmtronProfessional (option error) :=
  let cur := uint16 current in
  let* '(_, err) :=
    on_conn (modbus.WriteSingleRegister amtronProfessionalRegAmpsConfig cur) in
  let* _ :=
    match err with
    | None => if 0 <? cur then set_curr cur else io_ret tt
    | Some _ => io_ret tt
    end in
  io_ret err.

Definition Enable (enable : bool) : io AmtronProfessional (option error) :=
  let* wb := io_get in
  if enable then MaxCurrent (curr wb) else MaxCurrent 0.

Definition CurrentPower : io AmtronProfessional (float64 * option error) :=
  let* '(l1, err) :=
    on_conn (modbus.ReadHoldingRegisters amtronProfessionalRegPower 2) in
  match err with
  | Some e => io_ret (0%float, Some e)
  | None =>
    let* l1Power := io_lift (toUint32 l1) in
    let* '(l2, err) :=
      on_conn (modbus.ReadHoldingRegisters (amtronProfessionalRegPower + 2) 2) in
    match err with
    | Some e => io_ret (0%float, Some e)
    | None =>
      let* l2Power := io_lift (toUint32 l2) in
      let* '(l3, err) :=
        on_conn (modbus.ReadHoldingRegisters (amtronProfessionalRegPower + 4) 2) in
      match err with
      | Some e => io_ret (0%float, Some e)
      | None =>
        let* l3Power := io_lift (toUint32 l3) in
        io_ret (float64_of_uint (uint32 (uint32 (l1Power + l2Power) + l3Power)),
                err)
      end
    end
  end.

Definition Currents
  : io AmtronProfessional (float64 * float64 * float64 * option error) :=
  let* '(l1, err) :=
    on_conn (modbus.ReadHoldingRegisters amtronProfessionalRegCurrent 2) in
  let* l1Curr := io_lift (toUint32 l1) in
  match err with
  | Some e => io_ret (0%float, 0%float, 0%float, Some e)
  | None =>
    let* '(l2, err) :=
      on_conn (modbus.ReadHoldingRegisters (amtronProfessionalRegCurrent + 2) 2) in
    let* l2Curr := io_lift (toUint32 l2) in
    match err with
    | Some e => io_ret (0%float, 0%float, 0%float, Some e)
    | None =>
      let* '(l3, err) :=
        on_conn (modbus.ReadHoldingRegisters (amtronProfessionalRegCurrent + 4) 2) in
      let* l3Curr := io_lift (toUint32 l3) in
      match err with
      | Some e => io_ret (0%float, 0%float, 0%float, Some e)
      | None =>
        io_ret ((float64_of_uint l1Curr / 1000)%float,
                (float64_of_uint l2Curr / 1000)%float,
                (float64_of_uint l3Curr / 1000)%float, err)
      end
    end
  end.

(** The methods a caller can invoke, and a run of any number of them;
    results are dropped, the driver and its connection are kept. *)
Inductive call : Type :=
| CallStatus
| CallEnabled
| CallEnable (enable : bool)
| CallMaxCurrent (current : Z)
| CallCurrentPower
| CallCurrents.

Definition invoke (k : call) : io AmtronProfessional unit :=
  match k with
  | CallStatus => let* _ := Status in io_ret tt
  | CallEnabled => let* _ := Enabled in io_ret tt
  | CallEnable b => let* _ := Enable b in io_ret tt
  | CallMaxCurrent c => let* _ := MaxCurrent c in io_ret tt
  | CallCurrentPower => let* _ := CurrentPower in io_ret tt
  | CallCurrents => let* _ := Currents in io_ret tt
  end.

Fixpoint invoke_all (ks : list call) : io AmtronProfessional unit :=
  match ks with
  | [] => io_ret tt
  | k :: ks' => let* _ := invoke k in invoke_all ks'
  end.

End AmtronProfessional.

(* ================================================================== *)
(** * charger/amtron_prof.go                                            *)
(* ================================================================== *)

Module AmtronProf.

Import charger.

(** the driver with a cached enabled flag and the stored current, an
    [int64] *)
Record AmtronProfessional : Type := {
  conn : modbus.Connection;
  enabled : bool;
  current : Z
}.

Definition amtronProfRegEnergy : Z := 200.
Definition amtronProfRegCurrent : Z := 212.
Definition amtronProfRegPower : Z := 206.
Definition amtronProfRegStatus : Z := 122.
Definition amtronProfRegAmpsConfig : Z := 1000.
Definition amtronProfRegEVCCID : Z := 741.

Definition on_conn {A} (m : io modbus.Connection A) : io AmtronProfessional A :=
  io_zoom conn
    (fun c wb => {| conn := c; enabled := enabled wb; current := current wb |})
    m.

(** [wb.enabled = v] *)
Definition set_enabled (v : bool) : io AmtronProfessional unit :=
  fun wb =>
    Done (tt, {| conn := conn wb; enabled := v; current := current wb |}).

(** [wb.current = v] *)
Definition set_current (v : Z) : io AmtronProfessional unit :=
  fun wb =>
    Done (tt, {| conn := conn wb; enabled := enabled wb; current := v |}).

Definition NewAmtronProfessional (dial : modbus.Connection + error)
  : option AmtronProfessional * option error :=
  match dial with
  | inr err => (None, Some err)
  | inl c => (Some {| conn := c; enabled := true; current := 6 |}, None)
  end.

Definition Status : io AmtronProfessional (api.ChargeStatus * option error) :=
  let* '(b, err) :=
    on_conn (modbus.ReadHoldingRegisters amtronProfRegStatus 1) in
  match err with
  | Some e => io_ret (api.StatusNone, Some e)
  | None =>
    let* x := io_lift (index b 1) in
    io_ret
      (match u8 x with
       | 1 => (api.StatusA, None)
       | 2 => (api.StatusB, None)
       | 3 => (api.StatusC, None)
       | 4 => (api.StatusD, None)
       | 5 => (api.StatusE, None)
       | 6 => (api.StatusF, None)
       | _ => (api.StatusNone,
               Some (errorString ("invalid status: " ++ fmt_d_bytes b)))
       end)
  end.

Definition Enabled : io AmtronProfessional (bool * option error) :=
  let* wb := io_get in
  io_ret (enabled wb, None).

Definition MaxCurrent (c : Z) : io AmtronProfessional (option error) :=
  let* _ := set_current c in
  let* wb := io_get in
  if enabled wb then
    let* '(_, err) :=
      on_conn (modbus.WriteSingleRegister amtronProfRegAmpsConfig (uint16 c)) in
    io_ret err
  else io_ret None.

Definition Enable (enable : bool) : io AmtronProfessional (option error) :=
  if negb enable then
    let* err := MaxCurrent 0 in
    let* _ := set_enabled false in
    io_ret err
  else
    let* wb := io_get in
    let* err := MaxCurrent (current wb) in
    let* _ := set_enabled true in
    io_ret err.

Definition unavailable : list byte := [xff; xff; xff; xff]%byte.

Definition TotalEnergy : io AmtronProfessional (float64 * option error) :=
  let* '(l1, err) :=
    on_conn (modbus.ReadHoldingRegisters amtronProfRegEnergy 2) in
  match err with
  | Some e => io_ret (0%float, Some e)
  | None =>
    let* l1Energy := io_lift (toUint32 l1) in
    let* '(l2, err) :=
      on_conn (modbus.ReadHoldingRegisters (amtronProfRegEnergy + 2) 2) in
    match err with
    | Some e => io_ret (0%float, Some e)
    | None =>
      let* l2Energy := io_lift (toUint32 l2) in
      let l2Energy := if bytes_Equal l2 unavailable then 0 else l2Energy in
      let* '(l3, err) :=
        on_conn (modbus.ReadHoldingRegisters (amtronProfRegEnergy + 4) 2) in
      match err with
      | Some e => io_ret (0%float, Some e)
      | None =>
        let* l3Energy := io_lift (toUint32 l3) in
        let l3Energy := if bytes_Equal l3 unavailable then 0 else l3Energy in
        io_ret
          ((float64_of_uint (uint32 (uint32 (l1Energy + l2Energy) + l3Energy))
            / 1000)%float,
           err)
      end
    end
  end.

Definition Currents
  : io AmtronProfessional (float64 * float64 * float64 * option error) :=
  let* '(l1, err) :=
    on_conn (modbus.ReadHoldingRegisters amtronProfRegCurrent 2) in
  let* l1Curr := io_lift (toUint32 l1) in
  match err with
  | Some e => io_ret (0%float, 0%float, 0%float, Some e)
  | None =>
    let* '(l2, err) :=
      on_conn (modbus.ReadHoldingRegisters (amtronProfRegCurrent + 2) 2) in
    let* l2Curr := io_lift (toUint32 l2) in
    match err with
    | Some e => io_ret (0%float, 0%float, 0%float, Some e)
    | None =>
      let* '(l3, err) :=
        on_conn (modbus.ReadHoldingRegisters (amtronProfRegCurrent + 4) 2) in
      let* l3Curr := io_lift (toUint32 l3) in
      match err with
      | Some e => io_ret (0%float, 0%float, 0%float, Some e)
      | None =>
        io_ret ((float64_of_uint l1Curr / 1000)%float,
                (float64_of_uint l2Curr / 1000)%float,
                (float64_of_uint l3Curr / 1000)%float, err)
      end
    end
  end.

Definition CurrentPower : io AmtronProfessional (float64 * option error) :=
  let* '(l1, err) :=
    on_conn (modbus.ReadHoldingRegisters amtronProfRegPower 2) in
  match err with
  | Some e => io_ret (0%float, Some e)
  | None =>
    let* l1Power := io_lift (toUint32 l1) in
    let* '(l2, err) :=
      on_conn (modbus.ReadHoldingRegisters (amtronProfRegPower + 2) 2) in
    match err with
    | Some e => io_ret (0%float, Some e)
    | None =>
      let* l2Power := io_lift (toUint32 l2) in
      let* '(l3, err) :=
        on_conn (modbus.ReadHoldingRegisters (amtronProfRegPower + 4) 2) in
      match err with
      | Some e => io_ret (0%float, Some e)
      | None =>
        let* l3Power := io_lift (toUint32 l3) in
        io_ret (float64_of_uint (uint32 (uint32 (l1Power + l2Power) + l3Power)),
                err)
      end
    end
  end.

End AmtronProf.

(* ================================================================== *)
(** * fritzdect: the AHA-HTTP connection of a FritzBox                  *)
(* ================================================================== *)

Module fritzdect.

Inductive request : Set :=
| ReqExecCmd (function : string)
| ReqCurrentPower.

(** The box answers a switch command with a line of text and a power
    query with a number, either of them possibly with an error; like a
    modbus connection it is given the requests made so far. *)
Record Connection : Type := {
  exec_reply : list request -> string -> string * option error;
  power_reply : list request -> float64 * option error;
  history : list request
}.

Definition record (r : request) (c : Connection) : Connection :=
  {| exec_reply := exec_reply c;
     power_reply := power_reply c;
     history := r :: history c |}.

Definition ExecCmd (function : string) : io Connection (string * option error) :=
  fun c => Done (exec_reply c (history c) function,
                 record (ReqExecCmd function) c).

Definition CurrentPower : io Connection (float64 * option error) :=
  fun c => Done (power_reply c (history c), record ReqCurrentPower c).

End fritzdect.

(* ================================================================== *)
(** * The FritzDECT charger

    [ChargedEnergy], which decodes the XML device statistics, is in
    module [FritzDECTStats] further down. *)
(* ================================================================== *)

Module FritzDECT.

Record FritzDECT : Type := {
  fritzdect : fritzdect.Connection;
  standbypower : float64
}.

Definition on_conn {A} (m : io fritzdect.Connection A) : io FritzDECT A :=
  io_zoom fritzdect
    (fun c fd => {| fritzdect := c; standbypower := standbypower fd |}) m.

(** [NewFritzDECT], given what [fritzdect.NewConnection] returned: the
    charger is returned next to the error *)
Definition NewFritzDECT (dial : fritzdect.Connection * option error)
    (standbypower : float64) : FritzDECT * option error :=
  ({| fritzdect := fst dial; standbypower := standbypower |}, snd dial).

Definition Enabled : io FritzDECT (bool * option error) :=
  let* '(resp, err) := on_conn (fritzdect.ExecCmd "getswitchstate") in
  match err with
  | Some e => io_ret (false, Some e)
  | None =>
    if String.eqb resp "inval" then io_ret (false, Some ErrNotAvailable)
    else io_ret (ParseBool resp)
  end.

Definition Status : io FritzDECT (api.ChargeStatus * option error) :=
  let* '(resp, err) := on_conn (fritzdect.ExecCmd "getswitchpresent") in
  let err :=
    match err with
    | None =>
      let '(present, err) := ParseBool resp in
      match err with
      | None => if negb present then Some ErrNotAvailable else err
      | Some _ => err
      end
    | Some _ => err
    end in
  match err with
  | Some e => io_ret (api.StatusNone, Some e)
  | None =>
    let res := api.StatusB in
    let* c := io_get in
    (* static mode *)
    if PrimFloat.ltb (standbypower c) 0 then
      let* '(on, err) := Enabled in
      let res := if on then api.StatusC else res in
      io_ret (res, err)
    else
      (* standby power mode *)
      let* '(power, err) := on_conn fritzdect.CurrentPower in
      let res := if PrimFloat.ltb (standbypower c) power then api.StatusC
                 else res in
      io_ret (res, err)
  end.

Definition Enable (enable : bool) : io FritzDECT (option error) :=
  let cmd := (if enable then "setswitchon" else "setswitchoff")%string in
  let* '(resp, err) := on_conn (fritzdect.ExecCmd cmd) in
  let err :=
    match err with
    | None =>
      let '(on, err) := ParseBool resp in
      match err with
      | None => if negb (Bool.eqb enable on)
                then Some (errorString "switch failed") else err
      | Some _ => err
      end
    | Some _ => err
    end in
  io_ret err.

Definition MaxCurrent (current : Z) : io FritzDECT (option error) :=
  io_ret None.

Definition CurrentPower : io FritzDECT (float64 * option error) :=
  let* '(power, err) := on_conn fritzdect.CurrentPower in
  let* c := io_get in
  let power := if PrimFloat.ltb power (standbypower c) then 0%float else power in
  io_ret (power, err).

End FritzDECT.

(* ================================================================== *)
(** * pb, cloud, loadpoint: what the edge gateway is written against

    The declarations of these packages are not part of the sources at
    hand; the records below have the fields the gateway uses, under the
    names it uses.  Package pb is generated from a protobuf
    description (the gateway uses its service client and its stream
    types): a field that holds a message, such as [Payload] in a
    request or a response and the timestamp and duration in a payload,
    is a pointer, nil until it is set.  A timestamp or duration is the
    number of nanoseconds it stands for, and [int] is 64 bits wide. *)
(* ================================================================== *)

Module pb.

Record Payload : Type := {
  Stringval : string;
  Boolval : bool;
  Intval : Z;
  Floatval : float64;
  Timeval : option Z;
  Durationval : option Z
}.

(** [t.AsTime()], which reads a nil timestamp as the time 0 *)
Definition AsTime (t : option Z) : Z :=
  match t with
  | Some z => z
  | None => 0
  end.

(** [durationpb.New(d)] *)
Definition durationpb_New (d : Z) : option Z := Some d.

Record EdgeRequest : Type := {
  Id : Z;
  Loadpoint : Z;
  Api : Z;
  ReqPayload : option Payload
}.

Record EdgeResponse : Type := {
  RespId : Z;
  RespPayload : option Payload;
  Error : string
}.

Record UpdateRequest : Type := {
  UpdLoadpoint : Z;
  Key : string;
  Val : list byte
}.

(** A client stream towards the backend: [Send] reports an error or
    [nil], depending on the messages sent before; [sent] has them most
    recent first. *)
Record SendStream (M : Type) : Type := {
  send_reply : list M -> M -> option error;
  sent : list M
}.
Arguments send_reply {M} _.
Arguments sent {M} _.

(** [outS.Send(m)]; the message is recorded when accepted *)
Definition Send {M} (m : M) : io (SendStream M) (option error) :=
  fun s =>
    match send_reply s (sent s) m with
    | Some e => Done (Some e, s)
    | None => Done (None, {| send_reply := send_reply s; sent := m :: sent s |})
    end.

End pb.

Module cloud.

(** the operations of [cloud.ApiCall], in the order of the gateway's
    switch *)
Inductive ApiCall : Set :=
| Name | HasChargeMeter | GetStatus | GetMode | SetMode
| GetTargetSoC | SetTargetSoC | GetMinSoC | SetMinSoC
| GetPhases | SetPhases | SetTargetCharge | GetChargePower
| GetMinCurrent | SetMinCurrent | GetMaxCurrent | SetMaxCurrent
| GetMinPower | GetMaxPower | GetRemainingDuration | GetRemainingEnergy
| RemoteControl.

Definition calls : list ApiCall :=
  [Name; HasChargeMeter; GetStatus; GetMode; SetMode;
   GetTargetSoC; SetTargetSoC; GetMinSoC; SetMinSoC;
   GetPhases; SetPhases; SetTargetCharge; GetChargePower;
   GetMinCurrent; SetMinCurrent; GetMaxCurrent; SetMaxCurrent;
   GetMinPower; GetMaxPower; GetRemainingDuration; GetRemainingEnergy;
   RemoteControl].

(** Which case of the switch a request code selects, given the numeric
    value of each constant: the first case that matches, none for the
    default. *)
Definition select (code : ApiCall -> Z) (api : Z) : option ApiCall :=
  List.find (fun c => code c =? api) calls.

End cloud.

Module loadpoint.

(** the methods of [loadpoint.API] the gateway calls, over the state
    [LP] of a loadpoint *)
Class API (LP : Type) : Type := {
  Name : LP -> string;
  HasChargeMeter : LP -> bool;
  GetStatus : LP -> api.ChargeStatus;
  GetMode : LP -> api.ChargeMode;
  SetMode : api.ChargeMode -> LP -> LP;
  GetTargetSoC : LP -> Z;
  SetTargetSoC : Z -> LP -> LP * option error;
  GetMinSoC : LP -> Z;
  SetMinSoC : Z -> LP -> LP * option error;
  GetPhases : LP -> Z;
  SetPhases : Z -> LP -> LP * option error;
  SetTargetCharge : Z -> Z -> LP -> LP;
  GetChargePower : LP -> float64;
  GetMinCurrent : LP -> float64;
  SetMinCurrent : float64 -> LP -> LP;
  GetMaxCurrent : LP -> float64;
  SetMaxCurrent : float64 -> LP -> LP;
  GetMinPower : LP -> float64;
  GetMaxPower : LP -> float64;
  GetRemainingDuration : LP -> Z;
  GetRemainingEnergy : LP -> float64;
  RemoteControl : string -> string -> LP -> LP
}.

(** Modelled from the spec: the loadpoint behind [loadpoint.API] is not
    among the sources.  By the spec a loadpoint has one of the charge
    modes off, now, minpv and pv, and a write outside the legal range
    is rejected with no state change.  This is the mode of a loadpoint
    after [SetMode(mode)] when its mode was [current]: the new mode
    when it is one of the four, the old one otherwise. *)
Definition SetMode_spec (mode current : api.ChargeMode) : api.ChargeMode :=
  if api.is_chargeMode mode then mode else current.

(** an implementation whose [SetMode] changes the mode as the spec has
    it *)
Definition mode_as_specified (LP : Type) `{API LP} : Prop :=
  forall (mode : api.ChargeMode) (l : LP),
    GetMode (SetMode mode l) = SetMode_spec mode (GetMode l).

End loadpoint.

(* ================================================================== *)
(** * edge: the gateway between the backend and the site               *)
(* ================================================================== *)

Module edge.

Import pb.

(** [util.Param]: a published value, of a loadpoint or of the site *)
Record Param (V : Type) : Type := {
  LoadPoint : option Z;
  ParamKey : string;
  ParamVal : V
}.
Arguments LoadPoint {V} _.
Arguments ParamKey {V} _.
Arguments ParamVal {V} _.

(** the fields of a payload, each set to [v] *)
Definition set_Stringval (v : string) (p : Payload) : Payload :=
  {| Stringval := v; Boolval := Boolval p; Intval := Intval p;
     Floatval := Floatval p; Timeval := Timeval p;
     Durationval := Durationval p |}.

Definition set_Boolval (v : bool) (p : Payload) : Payload :=
  {| Stringval := Stringval p; Boolval := v; Intval := Intval p;
     Floatval := Floatval p; Timeval := Timeval p;
     Durationval := Durationval p |}.

Definition set_Intval (v : Z) (p : Payload) : Payload :=
  {| Stringval := Stringval p; Boolval := Boolval p; Intval := v;
     Floatval := Floatval p; Timeval := Timeval p;
     Durationval := Durationval p |}.

Definition set_Floatval (v : float64) (p : Payload) : Payload :=
  {| Stringval := Stringval p; Boolval := Boolval p; Intval := Intval p;
     Floatval := v; Timeval := Timeval p;
     Durationval := Durationval p |}.

Definition set_Durationval (v : option Z) (p : Payload) : Payload :=
  {| Stringval := Stringval p; Boolval := Boolval p; Intval := Intval p;
     Floatval := Floatval p; Timeval := Timeval p;
     Durationval := v |}.

(** [res.Payload.X = v]: the field is written in the payload that
    [res.Payload] points to, and the write panics when it is nil *)
Definition assign (update : Payload -> Payload) (res : EdgeResponse)
  : run EdgeResponse :=
  match RespPayload res with
  | None => Panic "nil pointer dereference"
  | Some p =>
    Done {| RespId := RespId res; RespPayload := Some (update p);
            Error := Error res |}
  end.

(** [req.Payload], to read a field of: the read panics when it is nil *)
Definition payload (req : EdgeRequest) : run Payload :=
  match ReqPayload req with
  | None => Panic "nil pointer dereference"
  | Some p => Done p
  end.

(** [resp.Error = v] *)
Definition with_Error (v : string) (res : EdgeResponse) : EdgeResponse :=
  {| RespId := RespId res; RespPayload := RespPayload res; Error := v |}.

Section Gateway.

Context {LP : Type} `{loadpoint.API LP}.

(** the numeric values of the [cloud] constants *)
Variable code : cloud.ApiCall -> Z.

(** The variable [lp] is nil or refers to one of the loadpoints of the
    site; a method called through it works on that loadpoint, and
    panics when [lp] is nil. *)
Definition get {A} (lp : option nat) (method : LP -> A) : io (list LP) A :=
  fun site =>
    match lp with
    | None => Panic "nil pointer dereference"
    | Some i =>
      match site !! i with
      | Some l => Done (method l, site)
      | None => Panic "nil pointer dereference"
      end
    end.

Definition set_err (lp : option nat) (method : LP -> LP * option error)
  : io (list LP) (option error) :=
  fun site =>
    match lp with
    | None => Panic "nil pointer dereference"
    | Some i =>
      match site !! i with
      | Some l => Done (snd (method l), <[i := fst (method l)]> site)
      | None => Panic "nil pointer dereference"
      end
    end.

Definition set (lp : option nat) (method : LP -> LP) : io (list LP) unit :=
  let* _ := set_err lp (fun l => (method l, None)) in io_ret tt.

Definition apiRequest (req : EdgeRequest)
  : io (list LP) (EdgeResponse * option error) :=
  let res := {| RespId := Id req; RespPayload := None; Error := "" |} in
  let* lp :=
    if 0 <? Loadpoint req then
      let* site := io_get in
      let i := Z.to_nat (Loadpoint req - 1) in
      match site !! i with
      | Some _ => io_ret (Some i)
      | None => io_lift (Panic "index out of range")
      end
    else io_ret None in
  match cloud.select code (Api req) with
  | Some cloud.Name =>
    let* v := get lp loadpoint.Name in
    let* res := io_lift (assign (set_Stringval v) res) in
    io_ret (res, None)
  | Some cloud.HasChargeMeter =>
    let* v := get lp loadpoint.HasChargeMeter in
    let* res := io_lift (assign (set_Boolval v) res) in
    io_ret (res, None)
  | Some cloud.GetStatus =>
    let* v := get lp loadpoint.GetStatus in
    let* res :=
      io_lift (assign (set_Stringval (api.ChargeStatus_string v)) res) in
    io_ret (res, None)
  | Some cloud.GetMode =>
    let* v := get lp loadpoint.GetMode in
    let* res := io_lift (assign (set_Stringval v) res) in
    io_ret (res, None)
  | Some cloud.SetMode =>
    let* p := io_lift (payload req) in
    let* _ := set lp (loadpoint.SetMode (Stringval p)) in io_ret (res, None)
  | Some cloud.GetTargetSoC =>
    let* v := get lp loadpoint.GetTargetSoC in
    let* res := io_lift (assign (set_Intval v) res) in
    io_ret (res, None)
  | Some cloud.SetTargetSoC =>
    let* p := io_lift (payload req) in
    let* err := set_err lp (loadpoint.SetTargetSoC (Intval p)) in
    io_ret (res, err)
  | Some cloud.GetMinSoC =>
    let* v := get lp loadpoint.GetMinSoC in
    let* res := io_lift (assign (set_Intval v) res) in
    io_ret (res, None)
  | Some cloud.SetMinSoC =>
    let* p := io_lift (payload req) in
    let* err := set_err lp (loadpoint.SetMinSoC (Intval p)) in
    io_ret (res, err)
  | Some cloud.GetPhases =>
    let* v := get lp loadpoint.GetPhases in
    let* res := io_lift (assign (set_Intval v) res) in
    io_ret (res, None)
  | Some cloud.SetPhases =>
    let* p := io_lift (payload req) in
    let* err := set_err lp (loadpoint.SetPhases (Intval p)) in
    io_ret (res, err)
  | Some cloud.SetTargetCharge =>
    let* p := io_lift (payload req) in
    let* _ :=
      set lp (loadpoint.SetTargetCharge (AsTime (Timeval p)) (Intval p)) in
    io_ret (res, None)
  | Some cloud.GetChargePower =>
    let* v := get lp loadpoint.GetChargePower in
    let* res := io_lift (assign (set_Floatval v) res) in
    io_ret (res, None)
  | Some cloud.GetMinCurrent =>
    let* v := get lp loadpoint.GetMinCurrent in
    let* res := io_lift (assign (set_Floatval v) res) in
    io_ret (res, None)
  | Some cloud.SetMinCurrent =>
    let* p := io_lift (payload req) in
    let* _ := set lp (loadpoint.SetMinCurrent (Floatval p)) in
    io_ret (res, None)
  | Some cloud.GetMaxCurrent =>
    let* v := get lp loadpoint.GetMaxCurrent in
    let* res := io_lift (assign (set_Floatval v) res) in
    io_ret (res, None)
  | Some cloud.SetMaxCurrent =>
    let* p := io_lift (payload req) in
    let* _ := set lp (loadpoint.SetMaxCurrent (Floatval p)) in
    io_ret (res, None)
  | Some cloud.GetMinPower =>
    let* v := get lp loadpoint.GetMinPower in
    let* res := io_lift (assign (set_Floatval v) res) in
    io_ret (res, None)
  | Some cloud.GetMaxPower =>
    let* v := get lp loadpoint.GetMaxPower in
    let* res := io_lift (assign (set_Floatval v) res) in
    io_ret (res, None)
  | Some cloud.GetRemainingDuration =>
    let* v := get lp loadpoint.GetRemainingDuration in
    let* res := io_lift (assign (set_Durationval (durationpb_New v)) res) in
    io_ret (res, None)
  | Some cloud.GetRemainingEnergy =>
    let* v := get lp loadpoint.GetRemainingEnergy in
    let* res := io_lift (assign (set_Floatval v) res) in
    io_ret (res, None)
  | Some cloud.RemoteControl =>
    let* p := io_lift (payload req) in
    let* _ := set lp (loadpoint.RemoteControl "my.evcc.io" (Stringval p)) in
    io_ret (res, None)
  | None =>
    io_ret (res, Some (errorString ("unknown api call " ++ fmt_d (Api req))))
  end.

(** What [handleRequest] works on: the response stream, the site, and
    whether the channel [done] has been closed. *)
Record Gateway : Type := {
  outS : SendStream EdgeResponse;
  site : list LP;
  done : bool
}.

Definition on_site {A} (m : io (list LP) A) : io Gateway A :=
  io_zoom site (fun s g => {| outS := outS g; site := s; done := done g |}) m.

Definition on_outS {A} (m : io (SendStream EdgeResponse) A) : io Gateway A :=
  io_zoom outS (fun o g => {| outS := o; site := site g; done := done g |}) m.

(** [close(done)] *)
Definition close_done : io Gateway unit :=
  fun g =>
    if done g then Panic "close of closed channel"
    else Done (tt, {| outS := outS g; site := site g; done := true |}).

(** [handleRequest], on a request stream that delivers the requests
    [pending] and then ends with the error [closing] ([io.EOF] when the
    backend closes it in order).  Each turn of the loop takes one
    [Recv]. *)
Fixpoint handleRequest (pending : list EdgeRequest) (closing : error)
  : io Gateway unit :=
  match pending with
  | [] =>
    match closing with
    | EOF => close_done
    | _ => (* fmt.Println("cannot receive", err) *) fun _ => Exit 1
    end
  | req :: rest =>
    let* '(resp, err) := on_site (apiRequest req) in
    let resp :=
      match err with
      | Some e => with_Error (Go.Error e) resp
      | None => resp
      end in
    let* serr := on_outS (Send resp) in
    match serr with
    | Some e => io_lift (Panic (Go.Error e))
    | None => handleRequest rest closing
    end
  end.

(** [sendUpdates], on a channel that delivers the parameters [params]
    and is then closed; [Encode] is the gob encoding of a value. *)
Section Updates.

Variable V : Type.
Variable Encode : V -> list byte * option error.

Fixpoint sendUpdates (params : list (Param V))
  : io (SendStream UpdateRequest) unit :=
  match params with
  | [] => io_ret tt
  | param :: rest =>
    let '(b, err) := Encode (ParamVal param) in
    match err with
    | Some e => io_lift (Panic (Go.Error e))
    | None =>
      let lp :=
        match LoadPoint param with
        | Some n => int32 (n + 1)
        | None => 0
        end in
      let req := {| UpdLoadpoint := lp; Key := ParamKey param; Val := b |} in
      let* serr := Send req in
      match serr with
      | Some e => io_lift (Panic (Go.Error e))
      | None => sendUpdates rest
      end
    end
  end.

End Updates.

End Gateway.

Arguments Gateway LP : clear implicits.

End edge.

(* ================================================================== *)
(** * The Amtron driver without stored state (src/unnamed/part_003)    *)
(* ================================================================== *)

Module AmtronPlain.

(** the driver: nothing but its connection *)
Record AmtronProfessional : Type := {
  conn : modbus.Connection
}.

Definition amtronRegEnergy : Z := 200.
Definition amtronRegCurrent : Z := 212.
Definition amtronRegPower : Z := 206.
Definition amtronRegStatus : Z := 122.
Definition amtronRegAmpsConfig : Z := 1000.
Definition amtronRegEVCCID : Z := 741.

Definition on_conn {A} (m : io modbus.Connection A) : io AmtronProfessional A :=
  io_zoom conn (fun c _ => {| conn := c |}) m.

Definition NewAmtronProfessional (dial : modbus.Connection + error)
  : option AmtronProfessional * option error :=
  match dial with
  | inr err => (None, Some err)
  | inl c => (Some {| conn := c |}, None)
  end.

(** [toUint32] of this file: no check of the length *)
Definition toUint32 (b : list byte) : run Z :=
  let! lo := binary.LittleEndian_Uint16 b in
  let! rest := slice_from b 2 in
  let! hi := binary.BigEndian_Uint16 rest in
  Done (uint32 (uint32 (uint16 (lo * 256)) + uint32 hi)).

Definition Status : io AmtronProfessional (api.ChargeStatus * option error) :=
  let* '(b, err) := on_conn (modbus.ReadHoldingRegisters amtronRegStatus 1) in
  match err with
  | Some e => io_ret (api.StatusNone, Some e)
  | None =>
    let* x := io_lift (index b 1) in
    io_ret
      (match u8 x with
       | 1 => (api.StatusA, None)
       | 2 => (api.StatusB, None)
       | 3 => (api.StatusC, None)
       | 4 => (api.StatusD, None)
       | 5 => (api.StatusE, None)
       | 6 => (api.StatusF, None)
       | _ => (api.StatusNone,
               Some (errorString ("invalid status: " ++ fmt_d_bytes b)))
       end)
  end.

Definition Enabled : io AmtronProfessional (bool * option error) :=
  let* '(b, err) := on_conn (modbus.ReadHoldingRegisters amtronRegAmpsConfig 1) in
  match err with
  | Some e => io_ret (false, Some e)
  | None =>
    let* value := io_lift (binary.LittleEndian_Uint16 b) in
    io_ret (0 <? value, None)
  end.

Definition MaxCurrent (current : Z) : io AmtronProfessional (option error) :=
  let* '(_, err) :=
    on_conn (modbus.WriteSingleRegister amtronRegAmpsConfig (uint16 current)) in
  io_ret err.

Definition Enable (enable : bool) : io AmtronProfessional (option error) :=
  if negb enable then MaxCurrent 0 else MaxCurrent 16.

Definition TotalEnergy : io AmtronProfessional (float64 * option error) :=
  let* '(l1, err) := on_conn (modbus.ReadHoldingRegisters amtronRegEnergy 2) in
  match err with
  | Some e => io_ret (0%float, Some e)
  | None =>
    let* l1Energy := io_lift (toUint32 l1) in
    let* '(l2, err) :=
      on_conn (modbus.ReadHoldingRegisters (amtronRegEnergy + 2) 2) in
    match err with
    | Some e => io_ret (0%float, Some e)
    | None =>
      let* l2Energy := io_lift (toUint32 l2) in
      let l2Energy := if l2Energy =? 4294967295 then 0 else l2Energy in
      let* '(l3, err) :=
        on_conn (modbus.ReadHoldingRegisters (amtronRegEnergy + 4) 2) in
      match err with
      | Some e => io_ret (0%float, Some e)
      | None =>
        let* l3Energy := io_lift (toUint32 l3) in
        let l3Energy := if l3Energy =? 4294967295 then 0 else l3Energy in
        io_ret
          (float64_of_uint (uint32 (uint32 (l1Energy + l2Energy) + l3Energy)),
           err)
      end
    end
  end.

Definition Currents
  : io AmtronProfessional (float64 * float64 * float64 * option error) :=
  let* '(l1, err) := on_conn (modbus.ReadHoldingRegisters amtronRegCurrent 2) in
  let* l1Curr := io_lift (toUint32 l1) in
  match err with
  | Some e => io_ret (0%float, 0%float, 0%float, Some e)
  | None =>
    let* '(l2, err) :=
      on_conn (modbus.ReadHoldingRegisters (amtronRegCurrent + 2) 2) in
    let* l2Curr := io_lift (toUint32 l2) in
    match err with
    | Some e => io_ret (0%float, 0%float, 0%float, Some e)
    | None =>
      let* '(l3, err) :=
        on_conn (modbus.ReadHoldingRegisters (amtronRegCurrent + 4) 2) in
      let* l3Curr := io_lift (toUint32 l3) in
      match err with
      | Some e => io_ret (0%float, 0%float, 0%float, Some e)
      | None =>
        io_ret ((float64_of_uint l1Curr / 1000)%float,
                (float64_of_uint l2Curr / 1000)%float,
                (float64_of_uint l3Curr / 1000)%float, err)
      end
    end
  end.

Definition CurrentPower : io AmtronProfessional (float64 * option error) :=
  let* '(l1, err) := on_conn (modbus.ReadHoldingRegisters amtronRegPower 2) in
  match err with
  | Some e => io_ret (0%float, Some e)
  | None =>
    let* l1Power := io_lift (toUint32 l1) in
    let* '(l2, err) :=
      on_conn (modbus.ReadHoldingRegisters (amtronRegPower + 2) 2) in
    match err with
    | Some e => io_ret (0%float, Some e)
    | None =>
      let* l2Power := io_lift (toUint32 l2) in
      let* '(l3, err) :=
        on_conn (modbus.ReadHoldingRegisters (amtronRegPower + 4) 2) in
      match err with
      | Some e => io_ret (0%float, Some e)
      | None =>
        let* l3Power := io_lift (toUint32 l3) in
        io_ret (float64_of_uint (uint32 (uint32 (l1Power + l2Power) + l3Power)),
                err)
      end
    end
  end.

End AmtronPlain.

(* ================================================================== *)
(** * FritzDECT: the energy charged today                              *)
(* ================================================================== *)

Module FritzDECTStats.

Import FritzDECT.

(** [strings.Split(s, ",")[0]]: the text before the first comma, all of
    [s] when it has none *)
Fixpoint before_comma (s : string) : string :=
  match s with
  | EmptyString => EmptyString
  | String c rest =>
    if Ascii.eqb c ","%char then EmptyString else String c (before_comma rest)
  end.

(** [values[i]] on a slice of strings *)
Definition at_index (values : list string) (i : nat) : run string :=
  match nth_error values i with
  | Some v => Done v
  | None => Panic "index out of range"
  end.

Section ChargedEnergy.

(** What stands outside the repository: [xml.Unmarshal] into
    [fritzdect.Devicestats], of which only [stats.Energy.Values] is
    read, and [strconv.ParseFloat] at 64 bits. *)
Variable Unmarshal : string -> list string * option error.
Variable ParseFloat : string -> float64 * option error.

Definition ChargedEnergy : io FritzDECT (float64 * option error) :=
  (* fetch basicdevicestats *)
  let* '(resp, err) := on_conn (fritzdect.ExecCmd "getbasicdevicestats") in
  match err with
  | Some e => io_ret (0%float, Some e)
  | None =>
    (* unmarshal devicestats *)
    let '(values, err) := Unmarshal resp in
    match err with
    | Some e => io_ret (0%float, Some e)
    | None =>
      (* select energy value of current day *)
      if len values =? 0 then io_ret (0%float, Some ErrNotAvailable)
      else
        let* today := io_lift (at_index values 1) in
        let '(energy, err) := ParseFloat (before_comma today) in
        io_ret ((energy / 1000)%float, err)
    end
  end.

End ChargedEnergy.

End FritzDECTStats.

(* ================================================================== *)
(** * Concrete devices, sites and requests, for running the code       *)
(* ================================================================== *)

Module fixtures.

(** a register device that answers every request with the same bytes *)
Definition steady (reply : list byte) : modbus.Connection :=
  {| modbus.device := fun _ _ => (reply, None); modbus.history := [] |}.

(** a register device that fails every request *)
Definition broken : modbus.Connection :=
  {| modbus.device := fun _ _ => ([], Some (errorString "timeout"));
     modbus.history := [] |}.

(** a register device that fails the first request made on it *)
Definition cold : modbus.Connection :=
  {| modbus.device :=
       fun h _ => match h with
                  | [] => ([], Some (errorString "timeout"))
                  | _ => ([x00; x00; x00; x00]%byte, None)
                  end;
     modbus.history := [] |}.

(** A FritzBox whose switch is absent: it answers "0" to
    getswitchpresent and "inval" to every other command. *)
Definition absent_switch : fritzdect.Connection :=
  {| fritzdect.exec_reply :=
       fun _ cmd => if String.eqb cmd "getswitchpresent" then ("0"%string, None)
                    else ("inval"%string, None);
     fritzdect.power_reply := fun _ => (0%float, None);
     fritzdect.history := [] |}.

(** A FritzBox that confirms every switch command with "1". *)
Definition stuck_on : fritzdect.Connection :=
  {| fritzdect.exec_reply := fun _ _ => ("1"%string, None);
     fritzdect.power_reply := fun _ => (0%float, None);
     fritzdect.history := [] |}.

(** Modelled from the spec: a loadpoint to run the gateway on, no
    implementation of [loadpoint.API] being among the sources.  Its
    mode changes as the spec has it ([loadpoint.SetMode_spec]): a mode
    outside off, now, minpv, pv is rejected and the mode stays as it
    was; a phase count other than 1 or 3 is rejected with an error. *)
Record plain_lp : Type := {
  lp_name : string;
  lp_mode : api.ChargeMode;
  lp_targetSoC : Z;
  lp_phases : Z
}.

#[global] Instance plain_lp_API : loadpoint.API plain_lp := {|
  loadpoint.Name := lp_name;
  loadpoint.HasChargeMeter := fun _ => false;
  loadpoint.GetStatus := fun _ => api.StatusA;
  loadpoint.GetMode := lp_mode;
  loadpoint.SetMode := fun m l =>
    {| lp_name := lp_name l;
       lp_mode := loadpoint.SetMode_spec m (lp_mode l);
       lp_targetSoC := lp_targetSoC l; lp_phases := lp_phases l |};
  loadpoint.GetTargetSoC := lp_targetSoC;
  loadpoint.SetTargetSoC := fun v l =>
    ({| lp_name := lp_name l; lp_mode := lp_mode l;
        lp_targetSoC := v; lp_phases := lp_phases l |}, None);
  loadpoint.GetMinSoC := fun _ => 0;
  loadpoint.SetMinSoC := fun _ l => (l, None);
  loadpoint.GetPhases := lp_phases;
  loadpoint.SetPhases := fun v l =>
    if (v =? 1) || (v =? 3)
    then ({| lp_name := lp_name l; lp_mode := lp_mode l;
             lp_targetSoC := lp_targetSoC l; lp_phases := v |}, None)
    else (l, Some (errorString "invalid number of phases"));
  loadpoint.SetTargetCharge := fun _ _ l => l;
  loadpoint.GetChargePower := fun _ => 0%float;
  loadpoint.GetMinCurrent := fun _ => 6%float;
  loadpoint.SetMinCurrent := fun _ l => l;
  loadpoint.GetMaxCurrent := fun _ => 16%float;
  loadpoint.SetMaxCurrent := fun _ l => l;
  loadpoint.GetMinPower := fun _ => 0%float;
  loadpoint.GetMaxPower := fun _ => 0%float;
  loadpoint.GetRemainingDuration := fun _ => 0;
  loadpoint.GetRemainingEnergy := fun _ => 0%float;
  loadpoint.RemoteControl := fun _ _ l => l
|}.

Definition garage : plain_lp :=
  {| lp_name := "garage"; lp_mode := api.ModePV;
     lp_targetSoC := 80; lp_phases := 3 |}.

(** one way to number the operations: 1, 2, 3, ... in the order of the
    switch *)
Definition numbered (c : cloud.ApiCall) : Z :=
  match c with
  | cloud.Name => 1 | cloud.HasChargeMeter => 2 | cloud.GetStatus => 3
  | cloud.GetMode => 4 | cloud.SetMode => 5 | cloud.GetTargetSoC => 6
  | cloud.SetTargetSoC => 7 | cloud.GetMinSoC => 8 | cloud.SetMinSoC => 9
  | cloud.GetPhases => 10 | cloud.SetPhases => 11
  | cloud.SetTargetCharge => 12 | cloud.GetChargePower => 13
  | cloud.GetMinCurrent => 14 | cloud.SetMinCurrent => 15
  | cloud.GetMaxCurrent => 16 | cloud.SetMaxCurrent => 17
  | cloud.GetMinPower => 18 | cloud.GetMaxPower => 19
  | cloud.GetRemainingDuration => 20 | cloud.GetRemainingEnergy => 21
  | cloud.RemoteControl => 22
  end.

(** a stream that accepts every message, and one that refuses them *)
Definition accepting (M : Type) : pb.SendStream M :=
  {| pb.send_reply := fun _ _ => None; pb.sent := [] |}.

Definition closing (M : Type) : pb.SendStream M :=
  {| pb.send_reply := fun _ _ => Some (errorString "transport is closing");
     pb.sent := [] |}.

(** a payload with a text and a number *)
Definition text_and_number (text : string) (n : Z) : pb.Payload :=
  {| pb.Stringval := text; pb.Boolval := false; pb.Intval := n;
     pb.Floatval := 0%float; pb.Timeval := None; pb.Durationval := None |}.

(** a request with such a payload, and one without a payload *)
Definition request (id lp api : Z) (text : string) (n : Z) : pb.EdgeRequest :=
  {| pb.Id := id; pb.Loadpoint := lp; pb.Api := api;
     pb.ReqPayload := Some (text_and_number text n) |}.

Definition bare_request (id lp api : Z) : pb.EdgeRequest :=
  {| pb.Id := id; pb.Loadpoint := lp; pb.Api := api; pb.ReqPayload := None |}.

(** a gateway over the one-loadpoint site, [done] still open *)
Definition gateway (out : pb.SendStream pb.EdgeResponse)
  : edge.Gateway plain_lp :=
  {| edge.outS := out; edge.site := [garage]; edge.done := false |}.

End fixtures.

(* ================================================================== *)
(** * More devices and sites to run the code on                        *)
(* ================================================================== *)

Module scenes.

Definition carport : fixtures.plain_lp :=
  {| fixtures.lp_name := "carport"; fixtures.lp_mode := api.ModeOff;
     fixtures.lp_targetSoC := 100; fixtures.lp_phases := 1 |}.

(** a site with two loadpoints *)
Definition two_loadpoints : list fixtures.plain_lp := [fixtures.garage; carport].

Definition gateway (out : pb.SendStream pb.EdgeResponse)
  : edge.Gateway fixtures.plain_lp :=
  {| edge.outS := out; edge.site := two_loadpoints; edge.done := false |}.

(** an encoder that turns a number into its low byte *)
Definition low_byte (z : Z) : list byte * option error :=
  match Byte.of_N (Z.to_N (z mod 256)) with
  | Some b => ([b], None)
  | None => ([], Some (errorString "gob: value out of range"))
  end.

(** a register device that answers a read with fewer bytes than asked
    for, and one that answers every read of two registers with the
    bytes 00 00 0b b8 (3000) *)
Definition short_reply : modbus.Connection := fixtures.steady [x01]%byte.
Definition three_thousand : modbus.Connection :=
  fixtures.steady [x00; x00; x0b; xb8]%byte.

(** a register device that accepts the first request and fails every
    later one *)
Definition fading : modbus.Connection :=
  {| modbus.device :=
       fun h _ => match h with
                  | [] => ([x00; x00; x0b; xb8]%byte, None)
                  | _ => ([], Some (errorString "timeout"))
                  end;
     modbus.history := [] |}.

(** a FritzBox with the switch present and on, drawing 1500 W *)
Definition charging_box : fritzdect.Connection :=
  {| fritzdect.exec_reply :=
       fun _ cmd =>
         if String.eqb cmd "getbasicdevicestats"
         then ("<stats/>"%string, None) else ("1"%string, None);
     fritzdect.power_reply := fun _ => (1500%float, None);
     fritzdect.history := [] |}.

(** a FritzBox with the switch present whose state reads "inval" *)
Definition undecided_box : fritzdect.Connection :=
  {| fritzdect.exec_reply :=
       fun _ cmd => if String.eqb cmd "getswitchpresent"
                    then ("1"%string, None) else ("inval"%string, None);
     fritzdect.power_reply := fun _ => (0%float, None);
     fritzdect.history := [] |}.

End scenes.

(* ================================================================== *)
(** * Vocabulary of the statements                                      *)
(* ================================================================== *)

Section AmtronVocabulary.

(** the value [toUint32] computes from the first four bytes *)
Definition word_of (b0 b1 b2 b3 : byte) : Z :=
  ((u8 b0 + 256 * u8 b1) * 256) mod 2 ^ 16 + (256 * u8 b2 + u8 b3).

(** the number [toUint32] returns *)
Definition word (b : list byte) : Z :=
  match b with
  | b0 :: b1 :: b2 :: b3 :: _ => word_of b0 b1 b2 b3
  | _ => 0
  end.

(** the energy of a phase whose four bytes 0xFF mean "not there" *)
Definition phase_energy (l : list byte) : Z :=
  if bytes_Equal l [xff; xff; xff; xff]%byte then 0 else word l.

(** what the claim says [TotalEnergy] returns, from the replies to the
    three reads *)
Definition total_energy (r1 r2 r3 : list byte * option error)
  : float64 * option error :=
  match snd r1, snd r2, snd r3 with
  | Some e, _, _ => (0%float, Some e)
  | None, Some e, _ => (0%float, Some e)
  | None, None, Some e => (0%float, Some e)
  | None, None, None =>
    ((float64_of_uint (word (fst r1) + phase_energy (fst r2)
                       + phase_energy (fst r3)) / 1000)%float, None)
  end.

(** the connector states in the order of the register values 1..6 *)
Definition connector_states : list api.ChargeStatus :=
  [api.StatusA; api.StatusB; api.StatusC; api.StatusD; api.StatusE; api.StatusF].

Definition state_of_register (lo : Z) : option api.ChargeStatus :=
  if (1 <=? lo) && (lo <=? 6) then nth_error connector_states (Z.to_nat (lo - 1))
  else None.

(** what [Status] is to return for the bytes [b] of the status register
    with low byte [lo] *)
Definition status_result (b : list byte) (lo : byte)
  : api.ChargeStatus * option error :=
  match state_of_register (u8 lo) with
  | Some s => (s, None)
  | None => (api.StatusNone,
             Some (errorString ("invalid status: " ++ fmt_d_bytes b)))
  end.

End AmtronVocabulary.

Section AmtronProfessionalVocabulary.

Import AmtronProfessional.

(** the stored current is a positive [uint16] *)
Definition curr_ok (wb : AmtronProfessional) : Prop := 0 < curr wb < 2 ^ 16.

(** code that keeps it so, whatever it returns *)
Definition keeps {A} (m : io AmtronProfessional A) : Prop :=
  forall wb a wb', curr_ok wb -> m wb = Done (a, wb') -> curr_ok wb'.

End AmtronProfessionalVocabulary.

Section FritzDECTVocabulary.

Import FritzDECT.

(** the charger after one more command went to the box *)
Definition after_cmd (cmd : string) (fd : FritzDECT) : FritzDECT :=
  {| fritzdect := fritzdect.record (fritzdect.ReqExecCmd cmd) (fritzdect fd);
     standbypower := standbypower fd |}.

(** the box's answer to a command sent now *)
Definition answer (cmd : string) (fd : FritzDECT) : string * option error :=
  fritzdect.exec_reply (fritzdect fd) (fritzdect.history (fritzdect fd)) cmd.

(** the command [Enable] sends *)
Definition switch_cmd (enable : bool) : string :=
  if enable then "setswitchon" else "setswitchoff".

End FritzDECTVocabulary.

Section GatewayVocabulary.

Import pb edge.

Context {LP : Type} `{loadpoint.API LP}.
Variable code : cloud.ApiCall -> Z.

(** the operations of the gateway that only read a loadpoint *)
Definition reads (c : cloud.ApiCall) : bool :=
  match c with
  | cloud.Name | cloud.HasChargeMeter | cloud.GetStatus | cloud.GetMode
  | cloud.GetTargetSoC | cloud.GetMinSoC | cloud.GetPhases
  | cloud.GetChargePower | cloud.GetMinCurrent | cloud.GetMaxCurrent
  | cloud.GetMinPower | cloud.GetMaxPower | cloud.GetRemainingDuration
  | cloud.GetRemainingEnergy => true
  | _ => false
  end.

(** the response [apiRequest] starts from: the id of the request, no
    payload, no error text *)
Definition fresh (req : EdgeRequest) : EdgeResponse :=
  {| RespId := Id req; RespPayload := None; Error := "" |}.

Definition unknown_api_call (req : EdgeRequest) : error :=
  errorString ("unknown api call " ++ fmt_d (Api req)).

(** the response that goes out: with the text of the error, if any *)
Definition outgoing (resp : EdgeResponse) (err : option error) : EdgeResponse :=
  match err with
  | Some e => with_Error (Go.Error e) resp
  | None => resp
  end.

(** the gateway after a request changed the site to [site'] and the
    response [m] went out *)
Definition answered (gw : Gateway LP) (site' : list LP) (m : EdgeResponse)
  : Gateway LP :=
  {| outS := {| send_reply := send_reply (outS gw);
                sent := m :: sent (outS gw) |};
     site := site';
     done := done gw |}.

(** a request that by itself does not end the loop: its operation code
    is unknown and its loadpoint index not above the number of
    loadpoints, or it names a configured loadpoint, carries a payload,
    and its operation is one that writes *)
Definition answerable (req : EdgeRequest) (site : list LP) : Prop :=
  (Loadpoint req <= len site /\ cloud.select code (Api req) = None) \/
  (1 <= Loadpoint req <= len site /\ ReqPayload req <> None /\
   exists c, cloud.select code (Api req) = Some c /\ reads c = false).

End GatewayVocabulary.

Section GatewayRunVocabulary.

Import pb edge.

(** the update [sendUpdates] sends for a parameter *)
Definition update_of {V : Type} (Encode : V -> list byte * option error)
    (param : Param V) : UpdateRequest :=
  {| UpdLoadpoint := match LoadPoint param with
                     | Some n => int32 (n + 1)
                     | None => 0
                     end;
     Key := ParamKey param;
     Val := fst (Encode (ParamVal param)) |}.

(** a stream with the messages [ms] sent after those it had *)
Definition having_sent {M : Type} (ms : list M) (out : SendStream M)
  : SendStream M :=
  {| send_reply := send_reply out; sent := rev ms ++ sent out |}.

End GatewayRunVocabulary.

Section MeterVocabulary.

(** what [CurrentPower] is to return, from the replies to its reads *)
Definition power_sum (r1 r2 r3 : list byte * option error)
  : float64 * option error :=
  match snd r1, snd r2, snd r3 with
  | Some e, _, _ => (0%float, Some e)
  | None, Some e, _ => (0%float, Some e)
  | None, None, Some e => (0%float, Some e)
  | None, None, None =>
    (float64_of_uint (word (fst r1) + word (fst r2) + word (fst r3)), None)
  end.

(** what [Currents] is to return *)
Definition phase_currents (r1 r2 r3 : list byte * option error)
  : float64 * float64 * float64 * option error :=
  match snd r1, snd r2, snd r3 with
  | Some e, _, _ => (0%float, 0%float, 0%float, Some e)
  | None, Some e, _ => (0%float, 0%float, 0%float, Some e)
  | None, None, Some e => (0%float, 0%float, 0%float, Some e)
  | None, None, None =>
    ((float64_of_uint (word (fst r1)) / 1000)%float,
     (float64_of_uint (word (fst r2)) / 1000)%float,
     (float64_of_uint (word (fst r3)) / 1000)%float, None)
  end.

(** the reads of three register pairs from [base] on, most recent
    first, that are made when the first two are answered by [r1] and
    [r2]: none after a failed one *)
Definition reads_made (base : Z) (r1 r2 : list byte * option error)
  : list modbus.request :=
  match snd r1, snd r2 with
  | Some _, _ => [modbus.ReadHolding base 2]
  | None, Some _ =>
    [modbus.ReadHolding (base + 2) 2; modbus.ReadHolding base 2]
  | None, None =>
    [modbus.ReadHolding (base + 4) 2; modbus.ReadHolding (base + 2) 2;
     modbus.ReadHolding base 2]
  end.

(** the connection [c] after the requests [rs], most recent first *)
Definition after_requests (rs : list modbus.request) (c : modbus.Connection)
  : modbus.Connection :=
  {| modbus.device := modbus.device c;
     modbus.history := rs ++ modbus.history c |}.

(** the replies of [c] to three reads of two registers from [base] on,
    made one after the other *)
Definition reply1 (base : Z) (c : modbus.Connection) : list byte * option error :=
  modbus.device c (modbus.history c) (modbus.ReadHolding base 2).

Definition reply2 (base : Z) (c : modbus.Connection) : list byte * option error :=
  modbus.device c (modbus.ReadHolding base 2 :: modbus.history c)
    (modbus.ReadHolding (base + 2) 2).

Definition reply3 (base : Z) (c : modbus.Connection) : list byte * option error :=
  modbus.device c
    (modbus.ReadHolding (base + 2) 2 :: modbus.ReadHolding base 2
     :: modbus.history c)
    (modbus.ReadHolding (base + 4) 2).

End MeterVocabulary.

Section DriverVocabulary.

(** the calls on the amtron_professional.go driver that set a current *)
Definition sets_current (k : AmtronProfessional.call) : bool :=
  match k with
  | AmtronProfessional.CallMaxCurrent _ => true
  | _ => false
  end.

(** code of that driver that leaves the stored current alone *)
Definition leaves_curr {A} (m : io AmtronProfessional.AmtronProfessional A)
  : Prop :=
  forall wb a wb',
    m wb = Done (a, wb') ->
    AmtronProfessional.curr wb' = AmtronProfessional.curr wb.

(** the connection [c] after one more request *)
Definition after_request (r : modbus.request) (c : modbus.Connection)
  : modbus.Connection :=
  {| modbus.device := modbus.device c;
     modbus.history := r :: modbus.history c |}.

(** whether the two bytes of a register are not both zero *)
Definition nonzero (hi lo : byte) : bool :=
  negb ((u8 hi =? 0) && (u8 lo =? 0)).

End DriverVocabulary.

Section FritzDECTFurtherVocabulary.

(** the texts [strconv.ParseBool] reads as true *)
Definition true_texts : list string :=
  ["1"; "t"; "T"; "TRUE"; "true"; "True"]%string.

(** the charger after the requests [rs] went to the box, most recent
    first *)
Definition after_box_requests (rs : list fritzdect.request)
    (fd : FritzDECT.FritzDECT) : FritzDECT.FritzDECT :=
  {| FritzDECT.fritzdect :=
       {| fritzdect.exec_reply := fritzdect.exec_reply (FritzDECT.fritzdect fd);
          fritzdect.power_reply := fritzdect.power_reply (FritzDECT.fritzdect fd);
          fritzdect.history :=
            rs ++ fritzdect.history (FritzDECT.fritzdect fd) |};
     FritzDECT.standbypower := FritzDECT.standbypower fd |}.

End FritzDECTFurtherVocabulary.

(* ================================================================== *)
(** * Properties of the Go fragments                                   *)
(* ================================================================== *)

Section GoFacts.

Lemma u8_range (x : byte) : 0 <= u8 x < 256.
Proof.
  unfold u8. pose proof (Byte.to_N_bounded x) as Hb.
  split; [apply N2Z.is_nonneg | ].
  apply N.lt_succ_r in Hb. change 256 with (Z.of_N 256). now apply N2Z.inj_lt.
Qed.

(** a byte shifted into the high half of a 16-bit word stays in range *)
Lemma shift8_range (c : Z) :
  0 <= c < 256 -> uint16 (Z.shiftl c 8) = 256 * c.
Proof.
  intros Hc. unfold uint16. rewrite Z.shiftl_mul_pow2 by lia.
  change (2 ^ 8) with 256. change (2 ^ 16) with 65536.
  rewrite Z.mod_small; lia.
Qed.

(** or-ing a byte below a shifted byte is adding it *)
Lemma lor_low_high (a c : Z) :
  0 <= a < 256 -> 0 <= c < 256 -> Z.lor a (256 * c) = a + 256 * c.
Proof.
  intros Ha Hc.
  assert (Hdisj : Z.land a (256 * c) = 0).
  { apply Z.bits_inj'. intros n Hn. rewrite Z.land_spec, Z.bits_0.
    destruct (Z.lt_ge_cases n 8) as [Hlt | Hge].
    - replace (256 * c) with (c * 2 ^ 8) by (change (2 ^ 8) with 256; lia).
      rewrite Z.mul_pow2_bits_low by lia. apply andb_false_r.
    - rewrite (Z.bits_above_log2 a n); [reflexivity | lia | ].
      destruct (Z.eq_dec a 0) as [-> | Hnz]; [simpl; lia | ].
      apply Z.log2_lt_pow2; [lia | ].
      apply Z.lt_le_trans with (2 ^ 8); [change (2 ^ 8) with 256; lia | ].
      apply Z.pow_le_mono_r; lia. }
  rewrite <- Z.lxor_lor by exact Hdisj.
  symmetry. apply Z.add_nocarry_lxor. exact Hdisj.
Qed.

Lemma LittleEndian_Uint16_cons (b0 b1 : byte) (rest : list byte) :
  binary.LittleEndian_Uint16 (b0 :: b1 :: rest) = Done (u8 b0 + 256 * u8 b1).
Proof.
  unfold binary.LittleEndian_Uint16, index. simpl.
  pose proof (u8_range b0). pose proof (u8_range b1).
  rewrite shift8_range, lor_low_high by assumption. reflexivity.
Qed.

Lemma BigEndian_Uint16_cons (b0 b1 : byte) (rest : list byte) :
  binary.BigEndian_Uint16 (b0 :: b1 :: rest) = Done (256 * u8 b0 + u8 b1).
Proof.
  unfold binary.BigEndian_Uint16, index. simpl.
  pose proof (u8_range b0). pose proof (u8_range b1).
  rewrite shift8_range, lor_low_high by assumption. f_equal. lia.
Qed.

Lemma bytes_Equal_eq (a b : list byte) : bytes_Equal a b = true <-> a = b.
Proof.
  revert b. induction a as [| x a IH]; intros [| y b]; simpl;
    try (split; [discriminate | discriminate]); [tauto | ].
  rewrite andb_true_iff, IH. split.
  - intros [Hxy ->]. f_equal. now apply Byte.byte_dec_bl.
  - intros [= -> ->]. split; [ | reflexivity]. now apply Byte.byte_dec_lb.
Qed.

End GoFacts.

(* ================================================================== *)
(** * toUint32                                                          *)
(* ================================================================== *)

Section ToUint32.

Import charger.

Lemma word_of_range (b0 b1 b2 b3 : byte) : 0 <= word_of b0 b1 b2 b3 <= 130815.
Proof.
  unfold word_of.
  pose proof (u8_range b0). pose proof (u8_range b1).
  pose proof (u8_range b2). pose proof (u8_range b3).
  replace ((u8 b0 + 256 * u8 b1) * 256) with (256 * u8 b0 + u8 b1 * 2 ^ 16)
    by (change (2 ^ 16) with 65536; lia).
  rewrite Z.mod_add by (change (2 ^ 16) with 65536; lia).
  change (2 ^ 16) with 65536. rewrite Z.mod_small by lia. lia.
Qed.

Lemma toUint32_short (b : list byte) : len b < 4 -> toUint32 b = Done 0.
Proof.
  intros Hlen. unfold toUint32.
  destruct (Z.ltb_spec (len b) 4); [reflexivity | lia].
Qed.

Lemma toUint32_long (b0 b1 b2 b3 : byte) (rest : list byte) :
  toUint32 (b0 :: b1 :: b2 :: b3 :: rest) = Done (word_of b0 b1 b2 b3).
Proof.
  unfold toUint32.
  destruct (Z.ltb_spec (len (b0 :: b1 :: b2 :: b3 :: rest)) 4) as [Hlt | _].
  { unfold len in Hlt. simpl List.length in Hlt. lia. }
  rewrite LittleEndian_Uint16_cons. cbn [bind].
  unfold slice_from. cbn [List.length Nat.leb skipn bind].
  rewrite BigEndian_Uint16_cons. cbn [bind]. f_equal.
  pose proof (word_of_range b0 b1 b2 b3) as Hr. unfold word_of in Hr |- *.
  pose proof (u8_range b2). pose proof (u8_range b3).
  assert (Hlo : 0 <= ((u8 b0 + 256 * u8 b1) * 256) mod 2 ^ 16 < 2 ^ 16)
    by (apply Z.mod_pos_bound; reflexivity).
  unfold uint32, uint16. change (2 ^ 32) with 4294967296 in *.
  change (2 ^ 16) with 65536 in *.
  rewrite (Z.mod_small (_ mod 65536) 4294967296) by lia.
  rewrite (Z.mod_small (256 * u8 b2 + u8 b3)) by lia.
  rewrite Z.mod_small by lia. reflexivity.
Qed.

(** C9: [toUint32] is total: on every byte slice it returns a value and
    never panics on an index; a slice shorter than four bytes gives 0;
    a slice [b0 b1 b2 b3 ...] gives the little-endian 16-bit word of
    [b0 b1], multiplied by 256 with wrap-around at 2^16, plus the
    big-endian 16-bit word of [b2 b3]; the result is at most 131070. *)
Theorem toUint32_total (b : list byte) :
  exists v : Z,
    toUint32 b = Done v /\ 0 <= v <= 131070 /\
    match b with
    | b0 :: b1 :: b2 :: b3 :: _ =>
        binary.LittleEndian_Uint16 [b0; b1] = Done (u8 b0 + 256 * u8 b1) /\
        binary.BigEndian_Uint16 [b2; b3] = Done (256 * u8 b2 + u8 b3) /\
        v = ((u8 b0 + 256 * u8 b1) * 256) mod 2 ^ 16 + (256 * u8 b2 + u8 b3)
    | _ => v = 0
    end.
Proof.
  destruct b as [| b0 [| b1 [| b2 [| b3 rest]]]];
    try (exists 0; split; [apply toUint32_short; unfold len; simpl; lia | ];
         split; [lia | reflexivity]).
  exists (word_of b0 b1 b2 b3). split; [apply toUint32_long | ].
  pose proof (word_of_range b0 b1 b2 b3). split; [lia | ].
  repeat split;
    [apply LittleEndian_Uint16_cons | apply BigEndian_Uint16_cons].
Qed.

End ToUint32.

(* ================================================================== *)
(** * Status of the Amtron drivers                                     *)
(* ================================================================== *)

Section AmtronStatus.

Lemma status_switch (b : list byte) (lo : byte) :
  match u8 lo with
  | 1 => (api.StatusA, None)
  | 2 => (api.StatusB, None)
  | 3 => (api.StatusC, None)
  | 4 => (api.StatusD, None)
  | 5 => (api.StatusE, None)
  | 6 => (api.StatusF, None)
  | _ => (api.StatusNone,
          Some (errorString ("invalid status: " ++ fmt_d_bytes b)))
  end = status_result b lo.
Proof.
  unfold status_result, state_of_register.
  destruct (u8 lo) as [| p | p]; try reflexivity.
  do 3 (destruct p as [p | p | ]; try reflexivity).
Qed.

(** C3: when the read of the status register succeeds with the two
    bytes [hi lo] of the register, [Status] of either Amtron driver
    returns, for a low byte 1..6, the state A..F in that order and no
    error, and for any other low byte [StatusNone] with an
    "invalid status" error. *)
Theorem amtron_Status_mapping
    (dev : list modbus.request -> modbus.request -> list byte * option error)
    (h : list modbus.request) (hi lo : byte)
    (Hread : dev h (modbus.ReadHolding 122 1) = ([hi; lo], None)) :
  let c := {| modbus.device := dev; modbus.history := h |} in
  let c' := {| modbus.device := dev;
               modbus.history := modbus.ReadHolding 122 1 :: h |} in
  (forall curr,
     AmtronProfessional.Status
       {| AmtronProfessional.conn := c; AmtronProfessional.curr := curr |}
     = Done (status_result [hi; lo] lo,
             {| AmtronProfessional.conn := c';
                AmtronProfessional.curr := curr |})) /\
  (forall enabled current,
     AmtronProf.Status
       {| AmtronProf.conn := c; AmtronProf.enabled := enabled;
          AmtronProf.current := current |}
     = Done (status_result [hi; lo] lo,
             {| AmtronProf.conn := c'; AmtronProf.enabled := enabled;
                AmtronProf.current := current |})) /\
  (forall k : nat, (k < 6)%nat -> u8 lo = Z.of_nat k + 1 ->
     exists s, nth_error connector_states k = Some s /\
               status_result [hi; lo] lo = (s, None)) /\
  (~ 1 <= u8 lo <= 6 ->
     fst (status_result [hi; lo] lo) = api.StatusNone /\
     exists text,
       snd (status_result [hi; lo] lo)
       = Some (errorString ("invalid status" ++ text))).
Proof.
  intros c c'. repeat split.
  - intros curr.
    unfold AmtronProfessional.Status, AmtronProfessional.on_conn,
      modbus.ReadHoldingRegisters, modbus.roundtrip, io_bind, io_zoom, io_lift,
      io_ret, AmtronProfessional.amtronProfessionalRegStatus.
    cbn [AmtronProfessional.conn AmtronProfessional.curr c
         modbus.device modbus.history].
    rewrite Hread. cbn [index nth_error bind]. rewrite status_switch.
    reflexivity.
  - intros enabled current.
    unfold AmtronProf.Status, AmtronProf.on_conn,
      modbus.ReadHoldingRegisters, modbus.roundtrip, io_bind, io_zoom, io_lift,
      io_ret, AmtronProf.amtronProfRegStatus.
    cbn [AmtronProf.conn AmtronProf.enabled AmtronProf.current c
         modbus.device modbus.history].
    rewrite Hread. cbn [index nth_error bind]. rewrite status_switch.
    reflexivity.
  - intros k Hk Hlo. unfold status_result, state_of_register. rewrite Hlo.
    destruct (Z.leb_spec 1 (Z.of_nat k + 1)); [ | lia].
    destruct (Z.leb_spec (Z.of_nat k + 1) 6); [ | lia].
    cbn [andb]. replace (Z.to_nat (Z.of_nat k + 1 - 1)) with k by lia.
    destruct (nth_error connector_states k) as [s | ] eqn:Hs.
    + exists s. split; reflexivity.
    + apply nth_error_None in Hs. simpl in Hs. lia.
  - unfold status_result, state_of_register.
    destruct (Z.leb_spec 1 (u8 lo)); destruct (Z.leb_spec (u8 lo) 6);
      cbn [andb]; try reflexivity; lia.
  - unfold status_result, state_of_register.
    destruct (Z.leb_spec 1 (u8 lo)); destruct (Z.leb_spec (u8 lo) 6);
      cbn [andb]; try lia;
      exists (String ":" (String " " (fmt_d_bytes [hi; lo]))); reflexivity.
Qed.

(** the status register reads 0x0003: the connector is in state C *)
Lemma amtron_Status_mapping_witness :
  AmtronProfessional.Status
    {| AmtronProfessional.conn := fixtures.steady [x00; x03]%byte;
       AmtronProfessional.curr := 6 |}
  = Done ((api.StatusC, None),
          {| AmtronProfessional.conn :=
               {| modbus.device := modbus.device (fixtures.steady [x00; x03]%byte);
                  modbus.history := [modbus.ReadHolding 122 1] |};
             AmtronProfessional.curr := 6 |}).
Proof.
  exact (proj1 (amtron_Status_mapping
                  (modbus.device (fixtures.steady [x00; x03]%byte)) []
                  x00%byte x03%byte eq_refl) 6).
Defined.

End AmtronStatus.

(* ================================================================== *)
(** * amtron_professional.go: the stored current                       *)
(* ================================================================== *)

Section AmtronProfessionalCurrent.

Import AmtronProfessional.

Lemma keeps_ret {A} (a : A) : keeps (io_ret a).
Proof. intros wb a' wb' Hok [= _ <-]. exact Hok. Qed.

Lemma keeps_get : keeps io_get.
Proof. intros wb a' wb' Hok [= _ <-]. exact Hok. Qed.

Lemma keeps_lift {A} (m : run A) : keeps (io_lift m).
Proof.
  intros wb a wb' Hok. unfold io_lift. destruct m; simpl; try discriminate.
  intros [= _ <-]. exact Hok.
Qed.

Lemma keeps_on_conn {A} (m : io modbus.Connection A) : keeps (on_conn m).
Proof.
  intros wb a wb' Hok. unfold on_conn, io_zoom.
  destruct (m (conn wb)) as [[a' c'] | | ]; try discriminate.
  intros [= _ <-]. exact Hok.
Qed.

Lemma keeps_bind {A B} (m : io AmtronProfessional A)
    (k : A -> io AmtronProfessional B) :
  keeps m -> (forall a, keeps (k a)) -> keeps (io_bind m k).
Proof.
  intros Hm Hk wb b wb' Hok. unfold io_bind.
  destruct (m wb) as [[a wb1] | | ] eqn:Hrun; try discriminate.
  intros Hrun'. exact (Hk a wb1 b wb' (Hm wb a wb1 Hok Hrun) Hrun').
Qed.

Lemma keeps_set_curr (v : Z) : 0 < v < 2 ^ 16 -> keeps (set_curr v).
Proof. intros Hv wb a wb' _ [= _ <-]. exact Hv. Qed.

(** walk through code built from the pieces above *)
Ltac keeps_walk :=
  repeat first
    [ apply keeps_ret | apply keeps_get | apply keeps_lift
    | apply keeps_on_conn
    | apply keeps_bind; [ | intros ? ]
    | match goal with
      | |- keeps (match ?x with _ => _ end) => destruct x eqn:?
      end ].

Lemma keeps_Status : keeps Status.
Proof. unfold Status. keeps_walk. Qed.

Lemma keeps_Enabled : keeps Enabled.
Proof. unfold Enabled. keeps_walk. Qed.

Lemma keeps_CurrentPower : keeps CurrentPower.
Proof. unfold CurrentPower. keeps_walk. Qed.

Lemma keeps_Currents : keeps Currents.
Proof. unfold Currents. keeps_walk. Qed.

Lemma keeps_MaxCurrent (current : Z) : keeps (MaxCurrent current).
Proof.
  unfold MaxCurrent. keeps_walk.
  apply keeps_set_curr.
  match goal with H : (0 <? _) = true |- _ => apply Z.ltb_lt in H end.
  unfold uint16 in *.
  pose proof (Z.mod_pos_bound current (2 ^ 16) eq_refl). lia.
Qed.

Lemma keeps_Enable (enable : bool) : keeps (Enable enable).
Proof.
  unfold Enable. apply keeps_bind; [apply keeps_get | intros wb].
  destruct enable; apply keeps_MaxCurrent.
Qed.

Lemma keeps_invoke (k : call) : keeps (invoke k).
Proof.
  destruct k; cbn [invoke]; (apply keeps_bind; [ | intros ?; apply keeps_ret]).
  - apply keeps_Status.
  - apply keeps_Enabled.
  - apply keeps_Enable.
  - apply keeps_MaxCurrent.
  - apply keeps_CurrentPower.
  - apply keeps_Currents.
Qed.

Lemma keeps_invoke_all (ks : list call) : keeps (invoke_all ks).
Proof.
  induction ks as [| k ks IH]; cbn [invoke_all].
  - apply keeps_ret.
  - apply keeps_bind; [apply keeps_invoke | intros _; exact IH].
Qed.

(** [Enable] makes one write to the amps-config register: of 0 to
    disable, of the stored current to enable *)
Lemma Enable_writes (enable : bool) (wb : AmtronProfessional) :
  exists err wb',
    Enable enable wb = Done (err, wb') /\
    modbus.history (conn wb')
    = modbus.WriteSingle 1000 (if enable then uint16 (curr wb) else 0)
      :: modbus.history (conn wb) /\
    err = snd (modbus.device (conn wb) (modbus.history (conn wb))
                 (modbus.WriteSingle 1000
                    (if enable then uint16 (curr wb) else 0))).
Proof.
  unfold Enable, io_bind, io_get, MaxCurrent, on_conn, io_zoom, io_bind,
    modbus.WriteSingleRegister, modbus.roundtrip,
    amtronProfessionalRegAmpsConfig.
  destruct enable.
  - destruct (modbus.device (conn wb) (modbus.history (conn wb))
                (modbus.WriteSingle 1000 (uint16 (curr wb))))
      as [b [e | ]] eqn:Hdev; cbn.
    + eexists _, _. split; [reflexivity | ]. cbn. split; reflexivity.
    + destruct (0 <? uint16 (curr wb)); cbn;
        (eexists _, _; split; [reflexivity | ]; cbn; split; reflexivity).
  - change (uint16 0) with 0.
    destruct (modbus.device (conn wb) (modbus.history (conn wb))
                (modbus.WriteSingle 1000 0))
      as [b [e | ]] eqn:Hdev; cbn.
    + eexists _, _. split; [reflexivity | ]. cbn. split; reflexivity.
    + eexists _, _. split; [reflexivity | ]. cbn. split; reflexivity.
Qed.

(** [MaxCurrent] overwrites the stored current only when the write
    succeeded and the value written is above 0 *)
Lemma MaxCurrent_curr (current : Z) (wb wb' : AmtronProfessional)
    (err : option error) :
  MaxCurrent current wb = Done (err, wb') ->
  curr wb' = match err with
             | None => if 0 <? uint16 current then uint16 current else curr wb
             | Some _ => curr wb
             end.
Proof.
  unfold MaxCurrent, io_bind, on_conn, io_zoom,
    modbus.WriteSingleRegister, modbus.roundtrip.
  destruct (modbus.device (conn wb) (modbus.history (conn wb))
              (modbus.WriteSingle amtronProfessionalRegAmpsConfig
                 (uint16 current))) as [b [e | ]]; cbn.
  - intros [= <- <-]. reflexivity.
  - destruct (0 <? uint16 current); cbn; intros [= <- <-]; reflexivity.
Qed.

(** C4: after every sequence of operations on a new driver the stored
    current is positive: it starts as 6 and [MaxCurrent] overwrites it
    only by a value above 0 whose write succeeded.  So [Enable(false)]
    writes 0 to the amps-config register, [Enable(true)] writes a
    positive current, and the current written by [Enable] is 0 exactly
    when it disables. *)
Theorem amtron_professional_curr_positive
    (c : modbus.Connection) (ks : list call) (wb0 wb : AmtronProfessional)
    (Hnew : NewAmtronProfessional (inl c) = (Some wb0, None))
    (Hrun : invoke_all ks wb0 = Done (tt, wb)) :
  curr wb0 = 6 /\
  0 < curr wb /\
  (forall current err wb',
     MaxCurrent current wb = Done (err, wb') ->
     curr wb' <> curr wb ->
     err = None /\ curr wb' = uint16 current /\ 0 < uint16 current) /\
  forall enable : bool, exists err wb' v,
    Enable enable wb = Done (err, wb') /\
    modbus.history (conn wb')
    = modbus.WriteSingle amtronProfessionalRegAmpsConfig v
      :: modbus.history (conn wb) /\
    (enable = false -> v = 0) /\
    (enable = true -> v = curr wb /\ 0 < v) /\
    (v = 0 <-> enable = false).
Proof.
  injection Hnew as <-.
  assert (Hok : curr_ok wb).
  { eapply (keeps_invoke_all ks); [ | exact Hrun]. unfold curr_ok. simpl. lia. }
  split; [reflexivity | ]. split; [apply Hok | ]. split.
  { intros current err wb' Hmax Hne. apply MaxCurrent_curr in Hmax.
    destruct err as [e | ]; [congruence | ].
    destruct (Z.ltb_spec 0 (uint16 current)); [ | congruence].
    repeat split; assumption. }
  intros enable. destruct (Enable_writes enable wb) as (err & wb' & Hrun' & Hh & _).
  assert (Hcur : uint16 (curr wb) = curr wb).
  { unfold uint16. apply Z.mod_small. unfold curr_ok in Hok. lia. }
  exists err, wb', (if enable then uint16 (curr wb) else 0).
  split; [exact Hrun' | ]. split; [exact Hh | ].
  unfold curr_ok in Hok. destruct enable; rewrite ?Hcur.
  - split; [discriminate | ]. split; [intros _; lia | ]. split; [lia | discriminate].
  - split; [reflexivity | ]. split; [discriminate | ]. split; reflexivity.
Qed.

(** a run on a device that accepts every write: the current is raised
    to 16, the charger disabled, the status read *)
Lemma amtron_professional_curr_positive_witness :
  exists wb,
    invoke_all [CallMaxCurrent 16; CallEnable false; CallStatus]
      {| conn := fixtures.steady [x00; x03]%byte; curr := 6 |}
    = Done (tt, wb) /\ curr wb = 16 /\ 0 < curr wb.
Proof.
  eexists. split; [vm_compute; reflexivity | ]. split; [reflexivity | ].
  eapply (proj1 (proj2
    (amtron_professional_curr_positive
       (fixtures.steady [x00; x03]%byte)
       [CallMaxCurrent 16; CallEnable false; CallStatus] _ _ eq_refl eq_refl))).
Defined.

End AmtronProfessionalCurrent.

(* ================================================================== *)
(** * amtron_prof.go: the cached state                                  *)
(* ================================================================== *)

Section AmtronProfCache.

Import AmtronProf.

(** while disabled, [MaxCurrent] stores the current and leaves the
    connection alone *)
Lemma MaxCurrent_disabled (c : modbus.Connection) (stored v : Z) :
  MaxCurrent v {| conn := c; enabled := false; current := stored |}
  = Done (None, {| conn := c; enabled := false; current := v |}).
Proof. reflexivity. Qed.

(** while enabled, [MaxCurrent] stores the current and writes it, as a
    [uint16], to the amps-config register at once *)
Lemma MaxCurrent_enabled (c : modbus.Connection) (stored v : Z) :
  MaxCurrent v {| conn := c; enabled := true; current := stored |}
  = Done (snd (modbus.device c (modbus.history c)
                 (modbus.WriteSingle amtronProfRegAmpsConfig (uint16 v))),
          {| conn := {| modbus.device := modbus.device c;
                        modbus.history :=
                          modbus.WriteSingle amtronProfRegAmpsConfig (uint16 v)
                          :: modbus.history c |};
             enabled := true; current := v |}).
Proof.
  unfold MaxCurrent, io_bind, on_conn, io_zoom, set_current, io_get,
    modbus.WriteSingleRegister, modbus.roundtrip. cbn.
  destruct (modbus.device c (modbus.history c)
              (modbus.WriteSingle amtronProfRegAmpsConfig (uint16 v)));
    reflexivity.
Qed.

(** [Enabled] reports the cached flag and touches nothing *)
Lemma Enabled_cached (wb : AmtronProfessional) :
  Enabled wb = Done ((enabled wb, None), wb).
Proof. reflexivity. Qed.

(** C8, at the sequence disabled; MaxCurrent(v); Enable(true): the
    current [v] is stored and the connection [c] is left as it was, and
    the following [Enable(true)] returns nil and leaves the connection
    as it was, too: it calls [MaxCurrent] while the flag is still off,
    so the stored current is not written to the device. *)
Theorem amtron_prof_Enable_skips_write (c : modbus.Connection) (stored v : Z) :
  MaxCurrent v {| conn := c; enabled := false; current := stored |}
  = Done (None, {| conn := c; enabled := false; current := v |}) /\
  Enable true {| conn := c; enabled := false; current := v |}
  = Done (None, {| conn := c; enabled := true; current := v |}).
Proof. split; reflexivity. Qed.

(** the run that leads there from a new driver: [Enable(false)] writes 0
    and also stores 0 as the current *)
Lemma Enable_false_stores_zero (c : modbus.Connection) (stored : Z) :
  exists err c',
    Enable false {| conn := c; enabled := true; current := stored |}
    = Done (err, {| conn := c'; enabled := false; current := 0 |}) /\
    modbus.history c'
    = modbus.WriteSingle amtronProfRegAmpsConfig 0 :: modbus.history c.
Proof.
  unfold Enable. cbn [negb]. unfold io_bind at 1.
  rewrite MaxCurrent_enabled. cbn. eexists _, _. split; reflexivity.
Qed.

End AmtronProfCache.

(* ================================================================== *)
(** * amtron_prof.go: TotalEnergy                                       *)
(* ================================================================== *)

Section AmtronProfEnergy.

Import charger AmtronProf.

Lemma toUint32_word (b : list byte) : toUint32 b = Done (word b).
Proof.
  destruct b as [| b0 [| b1 [| b2 [| b3 rest]]]];
    try (apply toUint32_short; unfold len; simpl; lia).
  apply toUint32_long.
Qed.

Lemma word_range (b : list byte) : 0 <= word b <= 130815.
Proof.
  destruct b as [| b0 [| b1 [| b2 [| b3 rest]]]]; simpl; try lia.
  apply word_of_range.
Qed.

Lemma phase_energy_range (l : list byte) : 0 <= phase_energy l <= 130815.
Proof.
  unfold phase_energy. pose proof (word_range l).
  destruct (bytes_Equal l _); lia.
Qed.

(** C10: [TotalEnergy] reads the three phase energies at 200, 202 and
    204, each the number [word l] that [toUint32] makes of the bytes
    [l] read; when all reads succeed it returns their sum divided by
    1000, the second and third taken as 0 when their bytes are all 0xFF
    (the first as it is), and no error; when a read fails it returns 0
    and the error of that read. *)
Theorem TotalEnergy_sum (wb : AmtronProfessional) :
  let dev := modbus.device (conn wb) in
  let h0 := modbus.history (conn wb) in
  let h1 := modbus.ReadHolding 200 2 :: h0 in
  let h2 := modbus.ReadHolding 202 2 :: h1 in
  let r1 := dev h0 (modbus.ReadHolding 200 2) in
  let r2 := dev h1 (modbus.ReadHolding 202 2) in
  let r3 := dev h2 (modbus.ReadHolding 204 2) in
  (forall l, toUint32 l = Done (word l)) /\
  exists wb',
    TotalEnergy wb = Done (total_energy r1 r2 r3, wb') /\
    enabled wb' = enabled wb /\ current wb' = current wb.
Proof.
  intros dev h0 h1 h2 r1 r2 r3. split; [exact toUint32_word | ].
  unfold TotalEnergy, on_conn, io_bind, io_zoom, io_lift, io_ret,
    modbus.ReadHoldingRegisters, modbus.roundtrip, total_energy,
    amtronProfRegEnergy, unavailable.
  cbn [conn enabled current modbus.device modbus.history].
  change (200 + 2) with 202. change (200 + 4) with 204.
  fold dev h0 h1 h2. fold r1.
  destruct r1 as [l1 [e1 | ]]; cbn [fst snd].
  { eexists. repeat split. }
  rewrite (toUint32_word l1). cbn [bind conn enabled current
    modbus.device modbus.history].
  fold dev h0 h1 h2. fold r2.
  destruct r2 as [l2 [e2 | ]]; cbn [fst snd].
  { eexists. repeat split. }
  rewrite (toUint32_word l2). cbn [bind conn enabled current
    modbus.device modbus.history].
  fold dev h0 h1 h2. fold r3.
  destruct r3 as [l3 [e3 | ]]; cbn [fst snd].
  { eexists. repeat split. }
  rewrite (toUint32_word l3). cbn [bind conn enabled current
    modbus.device modbus.history].
  fold (phase_energy l2). fold (phase_energy l3).
  pose proof (word_range l1). pose proof (phase_energy_range l2).
  pose proof (phase_energy_range l3).
  unfold uint32. change (2 ^ 32) with 4294967296.
  rewrite (Z.mod_small (word l1 + phase_energy l2)) by lia.
  rewrite Z.mod_small by lia.
  eexists. repeat split.
Qed.

End AmtronProfEnergy.

(* ================================================================== *)
(** * FritzDECT                                                         *)
(* ================================================================== *)

Section FritzDECTFacts.

Import FritzDECT.

Lemma on_conn_ExecCmd (cmd : string) (fd : FritzDECT) :
  on_conn (fritzdect.ExecCmd cmd) fd = Done (answer cmd fd, after_cmd cmd fd).
Proof. reflexivity. Qed.

(** C6: when the box answers getswitchpresent with text that parses to
    false, [Status] fails with [ErrNotAvailable] and returns no
    connector state; when it answers getswitchstate with "inval",
    [Enabled] fails with [ErrNotAvailable]. *)
Theorem FritzDECT_not_available (fd : FritzDECT) :
  (forall resp,
     answer "getswitchpresent" fd = (resp, None) ->
     ParseBool resp = (false, None) ->
     Status fd = Done ((api.StatusNone, Some ErrNotAvailable),
                       after_cmd "getswitchpresent" fd)) /\
  (answer "getswitchstate" fd = ("inval"%string, None) ->
     Enabled fd = Done ((false, Some ErrNotAvailable),
                        after_cmd "getswitchstate" fd)).
Proof.
  split.
  - intros resp Hans Hparse. unfold Status, io_bind.
    rewrite on_conn_ExecCmd, Hans, Hparse. reflexivity.
  - intros Hans. unfold Enabled, io_bind.
    rewrite on_conn_ExecCmd, Hans. reflexivity.
Qed.

(** on a box without the switch *)
Lemma FritzDECT_not_available_witness :
  let fd := {| fritzdect := fixtures.absent_switch; standbypower := 5%float |} in
  Status fd = Done ((api.StatusNone, Some ErrNotAvailable),
                    after_cmd "getswitchpresent" fd) /\
  Enabled fd = Done ((false, Some ErrNotAvailable),
                     after_cmd "getswitchstate" fd).
Proof.
  intros fd. split.
  - exact (proj1 (FritzDECT_not_available fd) "0"%string eq_refl eq_refl).
  - exact (proj2 (FritzDECT_not_available fd) eq_refl).
Defined.

(** C7: [Enable(b)] sends the switch command for [b] and returns nil
    exactly when the box's answer came without an I/O error and parses
    to [b]; an I/O error and a parse error are returned as they are, an
    answer that parses to the other state gives "switch failed". *)
Theorem FritzDECT_Enable_confirmed (fd : FritzDECT) (enable : bool) :
  exists err : option error,
    Enable enable fd = Done (err, after_cmd (switch_cmd enable) fd) /\
    (err = None <->
     exists resp, answer (switch_cmd enable) fd = (resp, None) /\
                  ParseBool resp = (enable, None)) /\
    (forall resp e, answer (switch_cmd enable) fd = (resp, Some e) ->
                    err = Some e) /\
    (forall resp on e, answer (switch_cmd enable) fd = (resp, None) ->
                       ParseBool resp = (on, Some e) -> err = Some e) /\
    (forall resp, answer (switch_cmd enable) fd = (resp, None) ->
                  ParseBool resp = (negb enable, None) ->
                  err = Some (errorString "switch failed")).
Proof.
  unfold Enable, io_bind. fold (switch_cmd enable).
  rewrite on_conn_ExecCmd.
  destruct (answer (switch_cmd enable) fd) as [resp [e | ]] eqn:Hans.
  - eexists. split; [reflexivity | ]. repeat split.
    + discriminate.
    + intros (resp' & [= _] & _).
    + intros resp' e' [= _ <-]. reflexivity.
    + intros resp' on e' [= _].
    + intros resp' [= _].
  - destruct (ParseBool resp) as [on [pe | ]] eqn:Hparse.
    + eexists. split; [reflexivity | ]. repeat split.
      * discriminate.
      * intros (resp' & [= <-] & Hp). congruence.
      * intros resp' e' [= _].
      * intros resp' on' e' [= <-] Hp. congruence.
      * intros resp' [= <-] Hp. congruence.
    + destruct (Bool.eqb enable on) eqn:Heq.
      * apply Bool.eqb_prop in Heq. subst on.
        eexists. split; [reflexivity | ]. repeat split.
        -- intros _. exists resp. split; [reflexivity | exact Hparse].
        -- intros resp' e' [= _].
        -- intros resp' on' e' [= <-] Hp. congruence.
        -- intros resp' [= <-] Hp. rewrite Hparse in Hp.
           destruct enable; discriminate.
      * apply Bool.eqb_false_iff in Heq.
        eexists. split; [reflexivity | ]. repeat split.
        -- discriminate.
        -- intros (resp' & [= <-] & Hp). congruence.
        -- intros resp' e' [= _].
        -- intros resp' on' e' [= <-] Hp. congruence.
Qed.

(** a box that answers "1" whatever it is told: switching on is
    confirmed, switching off fails *)
Example FritzDECT_Enable_stuck_on :
  let fd := {| fritzdect := fixtures.stuck_on; standbypower := 0%float |} in
  Enable true fd = Done (None, after_cmd "setswitchon" fd) /\
  Enable false fd
  = Done (Some (errorString "switch failed"), after_cmd "setswitchoff" fd).
Proof. split; reflexivity. Qed.

End FritzDECTFacts.

(* ================================================================== *)
(** * edge: apiRequest                                                  *)
(* ================================================================== *)

Section ApiRequest.

Import pb edge.

Context {LP : Type} `{loadpoint.API LP}.
Variable code : cloud.ApiCall -> Z.

Lemma calls_complete (c : cloud.ApiCall) : In c cloud.calls.
Proof. destruct c; simpl; tauto. Qed.

(** the code of an operation selects a case of the switch *)
Lemma select_code (c : cloud.ApiCall) :
  exists c', cloud.select code (code c) = Some c'.
Proof.
  unfold cloud.select.
  destruct (List.find (fun c0 => code c0 =? code c) cloud.calls) as [c' | ] eqn:Hfind.
  - now exists c'.
  - pose proof (find_none _ _ Hfind c (calls_complete c)) as Hc.
    simpl in Hc. rewrite Z.eqb_refl in Hc. discriminate.
Qed.

Lemma get_at {A} (i : nat) (l : LP) (site : list LP) (method : LP -> A) :
  site !! i = Some l -> get (Some i) method site = Done (method l, site).
Proof. intros Hl. unfold get. now rewrite Hl. Qed.

Lemma set_err_at (i : nat) (l : LP) (site : list LP)
    (method : LP -> LP * option error) :
  site !! i = Some l ->
  set_err (Some i) method site
  = Done (snd (method l), <[i := fst (method l)]> site).
Proof. intros Hl. unfold set_err. now rewrite Hl. Qed.

Lemma set_at (i : nat) (l : LP) (site : list LP) (method : LP -> LP) :
  site !! i = Some l ->
  set (Some i) method site = Done (tt, <[i := method l]> site).
Proof.
  intros Hl. unfold set, io_bind. rewrite (set_err_at i l) by exact Hl.
  reflexivity.
Qed.

(** a request for loadpoint 0 (or below) and a known operation: the
    method is called on a nil [lp], or, where the operation takes its
    argument from the request, on the way there the payload is nil *)
Lemma apiRequest_nil (req : EdgeRequest) (site : list LP) (c : cloud.ApiCall) :
  Loadpoint req <= 0 ->
  cloud.select code (Api req) = Some c ->
  apiRequest code req site = Panic "nil pointer dereference".
Proof.
  intros Hlp Hsel. unfold apiRequest, io_bind.
  destruct (Z.ltb_spec 0 (Loadpoint req)) as [Hpos | _]; [lia | ].
  cbn [io_ret]. rewrite Hsel.
  destruct c; try reflexivity;
    unfold io_lift, payload; destruct (ReqPayload req); reflexivity.
Qed.

(** a request for a loadpoint beyond the last: the index panics *)
Lemma apiRequest_beyond (req : EdgeRequest) (site : list LP) :
  len site < Loadpoint req ->
  apiRequest code req site = Panic "index out of range".
Proof.
  intros Hlp. unfold apiRequest, io_bind, io_get.
  pose proof (Nat2Z.is_nonneg (List.length site)). unfold len in Hlp.
  destruct (Z.ltb_spec 0 (Loadpoint req)) as [_ | Hneg]; [ | lia].
  rewrite (lookup_ge_None_2 site (Z.to_nat (Loadpoint req - 1))) by lia.
  reflexivity.
Qed.

(** an unknown operation code, for loadpoint 0 or a configured one *)
Lemma apiRequest_unknown (req : EdgeRequest) (site : list LP) :
  Loadpoint req <= len site ->
  cloud.select code (Api req) = None ->
  apiRequest code req site = Done ((fresh req, Some (unknown_api_call req)), site).
Proof.
  intros Hlp Hsel. unfold apiRequest, io_bind, io_get. unfold len in Hlp.
  destruct (Z.ltb_spec 0 (Loadpoint req)) as [Hpos | _].
  - destruct (lookup_lt_is_Some_2 site (Z.to_nat (Loadpoint req - 1)))
      as [l Hl]; [lia | ].
    rewrite Hl. cbn [io_ret]. rewrite Hsel. reflexivity.
  - cbn [io_ret]. rewrite Hsel. reflexivity.
Qed.

(** the body of [apiRequest] on a configured loadpoint: the switch, on
    the loadpoint's index *)
Lemma apiRequest_at (req : EdgeRequest) (site : list LP) (l : LP) :
  0 < Loadpoint req ->
  site !! Z.to_nat (Loadpoint req - 1) = Some l ->
  forall c, cloud.select code (Api req) = Some c ->
  apiRequest code req site
  = match ReqPayload req with
    | Some p =>
      if reads c then Panic "nil pointer dereference"
      else
        let i := Z.to_nat (Loadpoint req - 1) in
        match c with
        | cloud.SetMode =>
          Done ((fresh req, None),
                <[i := loadpoint.SetMode (Stringval p) l]> site)
        | cloud.SetTargetSoC =>
          Done ((fresh req, snd (loadpoint.SetTargetSoC (Intval p) l)),
                <[i := fst (loadpoint.SetTargetSoC (Intval p) l)]> site)
        | cloud.SetMinSoC =>
          Done ((fresh req, snd (loadpoint.SetMinSoC (Intval p) l)),
                <[i := fst (loadpoint.SetMinSoC (Intval p) l)]> site)
        | cloud.SetPhases =>
          Done ((fresh req, snd (loadpoint.SetPhases (Intval p) l)),
                <[i := fst (loadpoint.SetPhases (Intval p) l)]> site)
        | cloud.SetTargetCharge =>
          Done ((fresh req, None),
                <[i := loadpoint.SetTargetCharge (AsTime (Timeval p))
                         (Intval p) l]> site)
        | cloud.SetMinCurrent =>
          Done ((fresh req, None),
                <[i := loadpoint.SetMinCurrent (Floatval p) l]> site)
        | cloud.SetMaxCurrent =>
          Done ((fresh req, None),
                <[i := loadpoint.SetMaxCurrent (Floatval p) l]> site)
        | _ =>
          Done ((fresh req, None),
                <[i := loadpoint.RemoteControl "my.evcc.io" (Stringval p) l]>
                  site)
        end
    | None => Panic "nil pointer dereference"
    end.
Proof.
  intros Hpos Hl c Hsel. unfold apiRequest, io_bind, io_get.
  destruct (Z.ltb_spec 0 (Loadpoint req)) as [_ | Hneg]; [ | lia].
  rewrite Hl. cbn [io_ret]. rewrite Hsel.
  unfold io_lift, payload.
  destruct (ReqPayload req) as [p | ]; destruct c; cbn [reads bind];
    rewrite ?(get_at _ l), ?(set_at _ l), ?(set_err_at _ l) by exact Hl;
    reflexivity.
Qed.

(** an operation that reads: the result is stored through the nil
    [Payload] of the response *)
Lemma apiRequest_read_panics (req : EdgeRequest) (site : list LP)
    (c : cloud.ApiCall) :
  Loadpoint req <= len site ->
  cloud.select code (Api req) = Some c ->
  reads c = true ->
  apiRequest code req site = Panic "nil pointer dereference".
Proof.
  intros Hlp Hsel Hreads.
  destruct (Z.le_gt_cases (Loadpoint req) 0) as [Hle | Hgt].
  - exact (apiRequest_nil req site c Hle Hsel).
  - unfold len in Hlp.
    destruct (lookup_lt_is_Some_2 site (Z.to_nat (Loadpoint req - 1)))
      as [l Hl]; [lia | ].
    rewrite (apiRequest_at req site l) with (c := c) by (lia || assumption).
    rewrite Hreads. now destruct (ReqPayload req).
Qed.

(** a known operation on a request without a payload *)
Lemma apiRequest_no_payload (req : EdgeRequest) (site : list LP)
    (c : cloud.ApiCall) :
  Loadpoint req <= len site ->
  cloud.select code (Api req) = Some c ->
  ReqPayload req = None ->
  apiRequest code req site = Panic "nil pointer dereference".
Proof.
  intros Hlp Hsel Hp.
  destruct (Z.le_gt_cases (Loadpoint req) 0) as [Hle | Hgt].
  - exact (apiRequest_nil req site c Hle Hsel).
  - unfold len in Hlp.
    destruct (lookup_lt_is_Some_2 site (Z.to_nat (Loadpoint req - 1)))
      as [l Hl]; [lia | ].
    rewrite (apiRequest_at req site l) with (c := c) by (lia || assumption).
    now rewrite Hp.
Qed.

(** an operation that writes, on a configured loadpoint, with the
    payload it takes its argument from: the untouched response comes
    back, and the site is as long as before *)
Lemma apiRequest_write (req : EdgeRequest) (site : list LP)
    (c : cloud.ApiCall) (p : Payload) :
  1 <= Loadpoint req <= len site ->
  cloud.select code (Api req) = Some c ->
  reads c = false ->
  ReqPayload req = Some p ->
  exists err l',
    apiRequest code req site
    = Done ((fresh req, err), <[Z.to_nat (Loadpoint req - 1) := l']> site).
Proof.
  intros Hlp Hsel Hreads Hp. unfold len in Hlp.
  destruct (lookup_lt_is_Some_2 site (Z.to_nat (Loadpoint req - 1)))
    as [l Hl]; [lia | ].
  rewrite (apiRequest_at req site l) with (c := c) by (lia || assumption).
  rewrite Hp, Hreads.
  destruct c; try discriminate; cbv zeta; now eexists _, _.
Qed.

(** the requests on which [apiRequest] returns *)
Lemma apiRequest_returns (req : EdgeRequest) (site site' : list LP)
    (resp : EdgeResponse) (err : option error) :
  apiRequest code req site = Done ((resp, err), site') ->
  answerable code req site.
Proof.
  intros Hrun.
  destruct (Z.le_gt_cases (Loadpoint req) (len site)) as [Hin | Hout].
  - destruct (cloud.select code (Api req)) as [c | ] eqn:Hsel.
    + right.
      destruct (Z.le_gt_cases (Loadpoint req) 0) as [Hle | Hgt].
      { rewrite (apiRequest_nil req site c Hle Hsel) in Hrun. discriminate. }
      split; [lia | ]. split.
      * intros Hp.
        rewrite (apiRequest_no_payload req site c Hin Hsel Hp) in Hrun.
        discriminate.
      * exists c. split; [exact Hsel | ].
        destruct (reads c) eqn:Hreads; [ | reflexivity].
        rewrite (apiRequest_read_panics req site c Hin Hsel Hreads) in Hrun.
        discriminate.
    + left. split; [exact Hin | exact Hsel].
  - rewrite apiRequest_beyond in Hrun by lia. discriminate.
Qed.

Lemma apiRequest_answerable (req : EdgeRequest) (site : list LP) :
  answerable code req site ->
  exists err site',
    apiRequest code req site = Done ((fresh req, err), site') /\
    List.length site' = List.length site.
Proof.
  intros [[Hin Hsel] | (Hin & Hp & c & Hsel & Hreads)].
  - exists (Some (unknown_api_call req)), site.
    split; [now apply apiRequest_unknown | reflexivity].
  - destruct (ReqPayload req) as [p | ] eqn:Hpay; [ | contradiction].
    destruct (apiRequest_write req site c p Hin Hsel Hreads Hpay)
      as (err & l' & Hrun).
    exists err, (<[Z.to_nat (Loadpoint req - 1) := l']> site).
    split; [exact Hrun | apply length_insert].
Qed.

(** whenever [apiRequest] returns, the response is the one it started
    from: the id of the request, no payload, an empty error field *)
Lemma apiRequest_fresh (req : EdgeRequest) (site site' : list LP)
    (resp : EdgeResponse) (err : option error) :
  apiRequest code req site = Done ((resp, err), site') ->
  resp = fresh req.
Proof.
  intros Hrun.
  destruct (apiRequest_answerable req site (apiRequest_returns _ _ _ _ _ Hrun))
    as (err' & site'' & Hrun' & _).
  congruence.
Qed.

Lemma apiRequest_Id (req : EdgeRequest) (site site' : list LP)
    (resp : EdgeResponse) (err : option error) :
  apiRequest code req site = Done ((resp, err), site') ->
  RespId resp = Id req /\ Error resp = ""%string.
Proof.
  intros Hrun. rewrite (apiRequest_fresh _ _ _ _ _ Hrun). split; reflexivity.
Qed.

End ApiRequest.

(* ================================================================== *)
(** * edge: the request loop and the update loop                        *)
(* ================================================================== *)

Section RequestLoop.

Import pb edge.

Context {LP : Type} `{loadpoint.API LP}.
Variable code : cloud.ApiCall -> Z.

(** one turn of the loop on a request that [apiRequest] completes *)
Lemma handleRequest_turn (req : EdgeRequest) (rest : list EdgeRequest)
    (closing : error) (gw : Gateway LP) (resp : EdgeResponse)
    (err : option error) (site' : list LP) :
  apiRequest code req (site gw) = Done ((resp, err), site') ->
  handleRequest code (req :: rest) closing gw
  = match send_reply (outS gw) (sent (outS gw)) (outgoing resp err) with
    | Some e => Panic (Go.Error e)
    | None => handleRequest code rest closing
                (answered gw site' (outgoing resp err))
    end.
Proof.
  intros Hreq. cbn [handleRequest]. unfold io_bind, on_site, on_outS, io_zoom.
  rewrite Hreq. cbn [site outS done]. fold (outgoing resp err).
  unfold Send.
  destruct (send_reply (outS gw) (sent (outS gw)) (outgoing resp err)) as [e | ];
    reflexivity.
Qed.

(** one turn of the loop on a request on which [apiRequest] panics *)
Lemma handleRequest_panic (req : EdgeRequest) (rest : list EdgeRequest)
    (closing : error) (gw : Gateway LP) (why : string) :
  apiRequest code req (site gw) = Panic why ->
  handleRequest code (req :: rest) closing gw = Panic why.
Proof.
  intros Hreq. cbn [handleRequest]. unfold io_bind, on_site, io_zoom.
  now rewrite Hreq.
Qed.

(** C1, as the code has it: the request loop returns when the stream
    ends with io.EOF and exits the process with status 1 on any other
    receive error; an answerable request (an unknown operation code
    with a loadpoint index not above the number of loadpoints, or a
    write operation with a payload for a configured loadpoint) gets a
    response with its id and the text of its error, and the loop goes
    on with the next request when the response is accepted and panics
    when [Send] fails; the update loop panics when a value cannot be
    encoded or [Send] fails. *)
Theorem gateway_outcomes (gw : Gateway LP) :
  (done gw = false ->
   handleRequest code [] EOF gw
   = Done (tt, {| outS := outS gw; site := site gw; done := true |})) /\
  (forall closing, closing <> EOF -> handleRequest code [] closing gw = Exit 1) /\
  (forall req rest closing,
     answerable code req (site gw) ->
     exists resp err site',
       apiRequest code req (site gw) = Done ((resp, err), site') /\
       RespId (outgoing resp err) = Id req /\
       (forall e, err = Some e -> Error (outgoing resp err) = Go.Error e) /\
       (send_reply (outS gw) (sent (outS gw)) (outgoing resp err) = None ->
        handleRequest code (req :: rest) closing gw
        = handleRequest code rest closing
            (answered gw site' (outgoing resp err))) /\
       (forall e,
          send_reply (outS gw) (sent (outS gw)) (outgoing resp err) = Some e ->
          handleRequest code (req :: rest) closing gw = Panic (Go.Error e))) /\
  (forall (V : Type) (Encode : V -> list byte * option error)
          (param : Param V) (rest : list (Param V))
          (out : SendStream UpdateRequest) (b : list byte) (e : error),
     Encode (ParamVal param) = (b, Some e) ->
     sendUpdates V Encode (param :: rest) out = Panic (Go.Error e)) /\
  (forall (V : Type) (Encode : V -> list byte * option error)
          (param : Param V) (rest : list (Param V))
          (out : SendStream UpdateRequest) (b : list byte) (e : error),
     Encode (ParamVal param) = (b, None) ->
     send_reply out (sent out)
       {| UpdLoadpoint := match LoadPoint param with
                          | Some n => int32 (n + 1)
                          | None => 0
                          end;
          Key := ParamKey param; Val := b |} = Some e ->
     sendUpdates V Encode (param :: rest) out = Panic (Go.Error e)).
Proof.
  split; [ | split; [ | split; [ | split]]].
  - intros Hdone. cbn [handleRequest]. unfold close_done. now rewrite Hdone.
  - intros closing Hne. cbn [handleRequest].
    destruct closing; [contradiction | reflexivity | reflexivity].
  - intros req rest closing Hans.
    destruct (apiRequest_answerable code req (site gw) Hans)
      as (err & site' & Hrun & _).
    exists (fresh req), err, site'. split; [exact Hrun | ].
    split; [destruct err; reflexivity | ].
    split; [intros e ->; reflexivity | ].
    rewrite (handleRequest_turn req rest closing gw _ err site' Hrun).
    split.
    + intros ->. reflexivity.
    + intros e ->. reflexivity.
  - intros V Encode param rest out b e Henc.
    cbn [sendUpdates]. rewrite Henc. reflexivity.
  - intros V Encode param rest out b e Henc Hsend.
    cbn [sendUpdates]. rewrite Henc. unfold io_bind, Send.
    rewrite Hsend. reflexivity.
Qed.

End RequestLoop.

Section GatewayRuns.

Import pb edge.

(** C1 fails as stated: a receive error ends the process with exit
    status 1, a failed [Send] of a response ends it with a panic, and
    so does a value of an update that cannot be encoded. *)
Lemma gateway_ends_process :
  handleRequest fixtures.numbered [] (errorString "connection reset")
    (fixtures.gateway (fixtures.accepting _)) = Exit 1 /\
  handleRequest fixtures.numbered [fixtures.request 7 1 5 "now" 0] EOF
    (fixtures.gateway (fixtures.closing _))
  = Panic "transport is closing" /\
  sendUpdates Z (fun _ => ([], Some (errorString "gob: type not registered")))
    [{| LoadPoint := None; ParamKey := "gridPower"; ParamVal := 0 |}]
    (fixtures.accepting _)
  = Panic "gob: type not registered".
Proof. repeat split. Qed.

(** three requests to the one loadpoint, a SetMode, one with an unknown
    operation code, and a SetPhases that the loadpoint refuses: three
    responses go out, two of them with an error text, and the loop
    returns at the end of the stream *)
Example gateway_run :
  exists gw,
    handleRequest fixtures.numbered
      [fixtures.request 7 1 5 "now" 0; fixtures.request 8 1 99 "" 0;
       fixtures.request 9 1 11 "" 2]
      EOF (fixtures.gateway (fixtures.accepting _)) = Done (tt, gw) /\
    map (fun m => (RespId m, Error m)) (sent (outS gw))
    = [(9, "invalid number of phases"%string);
       (8, "unknown api call 99"%string); (7, ""%string)] /\
    map loadpoint.GetMode (site gw) = [api.ModeNow] /\
    done gw = true.
Proof.
  eexists. split; [cbv; reflexivity | split; [ | split]; reflexivity].
Qed.

(** a GetMode request for the one loadpoint: the mode is read, and the
    store into the response's payload, which is nil, ends the loop *)
Example gateway_read_run :
  apiRequest fixtures.numbered (fixtures.request 7 1 4 "" 0) [fixtures.garage]
  = Panic "nil pointer dereference" /\
  handleRequest fixtures.numbered [fixtures.request 7 1 4 "" 0] EOF
    (fixtures.gateway (fixtures.accepting _))
  = Panic "nil pointer dereference".
Proof. split; reflexivity. Qed.

End GatewayRuns.

(* ================================================================== *)
(** * edge: requests without a loadpoint, and SetMode                   *)
(* ================================================================== *)

Section SiteRequests.

Import pb edge.

Context {LP : Type} `{loadpoint.API LP}.
Variable code : cloud.ApiCall -> Z.

(** C2, at a request with loadpoint index 0 and the code of any known
    operation: [lp] stays nil, the method call on it panics, so
    [apiRequest] returns no response and the loop sends none. *)
Theorem apiRequest_without_loadpoint_panics
    (c : cloud.ApiCall) (id : Z) (p : option Payload)
    (rest : list EdgeRequest) (closing : error) (gw : Gateway LP) :
  let req := {| Id := id; Loadpoint := 0; Api := code c; ReqPayload := p |} in
  apiRequest code req (site gw) = Panic "nil pointer dereference" /\
  handleRequest code (req :: rest) closing gw = Panic "nil pointer dereference".
Proof.
  intros req. destruct (select_code code c) as [c' Hsel].
  assert (Hreq : apiRequest code req (site gw) = Panic "nil pointer dereference").
  { apply (apiRequest_nil code req (site gw) c'); [simpl; lia | exact Hsel]. }
  split; [exact Hreq | ].
  now apply handleRequest_panic.
Qed.

(** a SetMode request for a configured loadpoint calls that loadpoint's
    [SetMode] with the mode string of the request as it is, and reports
    no error *)
Lemma SetMode_forwarded
    (req : EdgeRequest) (site : list LP) (i : nat) (l : LP) (p : Payload) :
  cloud.select code (Api req) = Some cloud.SetMode ->
  Loadpoint req = Z.of_nat i + 1 ->
  site !! i = Some l ->
  ReqPayload req = Some p ->
  apiRequest code req site
  = Done ((fresh req, None), <[i := loadpoint.SetMode (Stringval p) l]> site).
Proof.
  intros Hsel Hlp Hl Hp.
  assert (Hi : Z.to_nat (Loadpoint req - 1) = i) by lia.
  rewrite (apiRequest_at code req site l) with (c := cloud.SetMode);
    [ | lia | now rewrite Hi | exact Hsel].
  rewrite Hp, Hi. reflexivity.
Qed.

(** the modes of a site after one loadpoint was told its mode, when the
    loadpoints change their mode as the spec has it *)
Lemma modes_after_SetMode (mode : api.ChargeMode) (site : list LP)
    (i : nat) (l : LP) :
  loadpoint.mode_as_specified LP ->
  site !! i = Some l ->
  map loadpoint.GetMode (<[i := loadpoint.SetMode mode l]> site)
  = <[i := loadpoint.SetMode_spec mode (loadpoint.GetMode l)]>
      (map loadpoint.GetMode site).
Proof.
  intros Hspec Hl. rewrite <- Hspec.
  exact (list_fmap_insert loadpoint.GetMode site i (loadpoint.SetMode mode l)).
Qed.


End SiteRequests.

Section SetModeRuns.

Import pb edge.

(** the loadpoint of the runs takes a mode as the spec has it *)
Lemma plain_lp_mode_as_specified :
  loadpoint.mode_as_specified fixtures.plain_lp.
Proof. intros mode l. reflexivity. Qed.


(** the mode "minpv" sent to the one loadpoint of the site *)
Example SetMode_minpv_run :
  apiRequest fixtures.numbered (fixtures.request 7 1 5 "minpv" 0)
    [fixtures.garage]
  = Done ((fresh (fixtures.request 7 1 5 "minpv" 0), None),
          [{| fixtures.lp_name := "garage"; fixtures.lp_mode := api.ModeMinPV;
              fixtures.lp_targetSoC := 80; fixtures.lp_phases := 3 |}]).
Proof. reflexivity. Qed.

(** a request without a loadpoint ends the loop in a panic, and so do
    one for a loadpoint that is not there and a SetMode request without
    a payload *)
Example site_request_run :
  handleRequest fixtures.numbered [fixtures.request 7 0 1 "" 0] EOF
    (fixtures.gateway (fixtures.accepting _))
  = Panic "nil pointer dereference" /\
  handleRequest fixtures.numbered [fixtures.request 7 2 1 "" 0] EOF
    (fixtures.gateway (fixtures.accepting _))
  = Panic "index out of range" /\
  handleRequest fixtures.numbered [fixtures.bare_request 7 1 5] EOF
    (fixtures.gateway (fixtures.accepting _))
  = Panic "nil pointer dereference".
Proof. repeat split. Qed.

End SetModeRuns.

(* ================================================================== *)
(** * Runs of the drivers on concrete devices                          *)
(* ================================================================== *)

Section DriverRuns.

Example toUint32_1234 : charger.toUint32 [x01; x02; x03; x04]%byte = Done 1028.
Proof. reflexivity. Qed.

Example toUint32_all_ff :
  charger.toUint32 [xff; xff; xff; xff]%byte = Done 130815.
Proof. reflexivity. Qed.

(** every phase register reads 5000 Wh: 15 kWh in total *)
Example TotalEnergy_three_phases :
  exists wb,
    AmtronProf.TotalEnergy
      {| AmtronProf.conn := fixtures.steady [x00; x00; x13; x88]%byte;
         AmtronProf.enabled := true; AmtronProf.current := 6 |}
    = Done ((15%float, None), wb).
Proof. eexists. vm_compute. reflexivity. Qed.

(** every phase register reads 0xFFFFFFFF: the second and third phase
    count as 0, the first as 130815 *)
Example TotalEnergy_sentinel :
  exists wb,
    AmtronProf.TotalEnergy
      {| AmtronProf.conn := fixtures.steady [xff; xff; xff; xff]%byte;
         AmtronProf.enabled := true; AmtronProf.current := 6 |}
    = Done (((Go.float64_of_uint 130815 / 1000)%float, None), wb).
Proof. eexists. vm_compute. reflexivity. Qed.

(** the first read fails: no energy, the error of that read, and one
    request made *)
Example TotalEnergy_first_read_fails :
  exists wb,
    AmtronProf.TotalEnergy
      {| AmtronProf.conn := fixtures.cold;
         AmtronProf.enabled := true; AmtronProf.current := 6 |}
    = Done ((0%float, Some (errorString "timeout")), wb) /\
    modbus.history (AmtronProf.conn wb) = [modbus.ReadHolding 200 2].
Proof. eexists. split; [vm_compute; reflexivity | reflexivity]. Qed.

(** a new amtron_prof.go driver, disabled, given 10 A and enabled
    again: the only write the device sees is the 0 of the disabling *)
Example amtron_prof_lost_current :
  exists wb,
    (let* _ := AmtronProf.Enable false in
     let* _ := AmtronProf.MaxCurrent 10 in
     let* err := AmtronProf.Enable true in
     io_ret err)
      {| AmtronProf.conn := fixtures.steady []; AmtronProf.enabled := true;
         AmtronProf.current := 6 |}
    = Done (None, wb) /\
    AmtronProf.enabled wb = true /\ AmtronProf.current wb = 10 /\
    modbus.history (AmtronProf.conn wb) = [modbus.WriteSingle 1000 0].
Proof. eexists. split; [vm_compute; reflexivity | repeat split]. Qed.

(** the same calls on the amtron_professional.go driver: enabling
    writes the stored current *)
Example amtron_professional_restores_current :
  exists wb,
    (let* _ := AmtronProfessional.Enable false in
     let* _ := AmtronProfessional.MaxCurrent 10 in
     let* err := AmtronProfessional.Enable true in
     io_ret err)
      {| AmtronProfessional.conn := fixtures.steady [];
         AmtronProfessional.curr := 6 |}
    = Done (None, wb) /\
    modbus.history (AmtronProfessional.conn wb)
    = [modbus.WriteSingle 1000 10; modbus.WriteSingle 1000 10;
       modbus.WriteSingle 1000 0].
Proof. eexists. split; [vm_compute; reflexivity | reflexivity]. Qed.

End DriverRuns.

(* ================================================================== *)
(** * edge: which requests return, and what a request may change       *)
(* ================================================================== *)

Section ApiRequestFrame.

Import pb edge.

Context {LP : Type} `{loadpoint.API LP}.
Variable code : cloud.ApiCall -> Z.

(** what a returning [apiRequest] leaves as it was *)
Lemma apiRequest_site (req : EdgeRequest) (site site' : list LP)
    (resp : EdgeResponse) (err : option error) :
  apiRequest code req site = Done ((resp, err), site') ->
  List.length site' = List.length site /\
  (forall j : nat, Z.of_nat j + 1 <> Loadpoint req -> site' !! j = site !! j) /\
  (match cloud.select code (Api req) with
   | Some c => reads c = true -> site' = site
   | None => site' = site
   end).
Proof.
  intros Hrun.
  destruct (apiRequest_returns code req site site' resp err Hrun)
    as [[Hin Hsel] | (Hin & Hpay & c & Hsel & Hreads)].
  - rewrite (apiRequest_unknown code req site Hin Hsel) in Hrun.
    injection Hrun as _ _ <-. rewrite Hsel. repeat split.
  - destruct (ReqPayload req) as [p | ] eqn:Hp; [ | contradiction].
    destruct (apiRequest_write code req site c p Hin Hsel Hreads Hp)
      as (err' & l' & Hrun').
    rewrite Hrun' in Hrun. injection Hrun as _ _ <-.
    split; [apply length_insert | ]. split.
    + intros j Hj. apply list_lookup_insert_ne. lia.
    + rewrite Hsel, Hreads. discriminate.
Qed.

(** X1: [apiRequest] returns exactly on two kinds of request: one with
    an unknown operation code and a loadpoint index not above the
    number of loadpoints, and one that names a configured loadpoint
    (index 1..n), carries a payload, and asks for an operation that
    writes.  Every other request ends in a panic: on the slice index
    when the loadpoint index is above n; otherwise, for a known
    operation, on a nil pointer when the index is 0 or below (nil
    [lp]), when the operation reads (the result is stored through the
    nil [Payload] of the new response), or when the request has no
    payload. *)
Theorem apiRequest_returns_iff (req : EdgeRequest) (site : list LP) :
  ((exists resp err site',
      apiRequest code req site = Done ((resp, err), site'))
   <-> answerable code req site) /\
  (len site < Loadpoint req ->
   apiRequest code req site = Panic "index out of range") /\
  (forall c,
     Loadpoint req <= len site ->
     cloud.select code (Api req) = Some c ->
     Loadpoint req <= 0 \/ reads c = true \/ ReqPayload req = None ->
     apiRequest code req site = Panic "nil pointer dereference").
Proof.
  split; [ | split].
  - split.
    + intros (resp & err & site' & Hrun).
      exact (apiRequest_returns code req site site' resp err Hrun).
    + intros Hans.
      destruct (apiRequest_answerable code req site Hans)
        as (err & site' & Hrun & _).
      now exists (fresh req), err, site'.
  - apply apiRequest_beyond.
  - intros c Hin Hsel [Hle | [Hreads | Hp]].
    + exact (apiRequest_nil code req site c Hle Hsel).
    + exact (apiRequest_read_panics code req site c Hin Hsel Hreads).
    + exact (apiRequest_no_payload code req site c Hin Hsel Hp).
Qed.


End ApiRequestFrame.

(* ================================================================== *)
(** * edge: whole runs of the two loops                                 *)
(* ================================================================== *)

Section LoopRuns.

Import pb edge.

Context {LP : Type} `{loadpoint.API LP}.
Variable code : cloud.ApiCall -> Z.

Lemma answerable_length (req : EdgeRequest) (site site' : list LP) :
  List.length site' = List.length site ->
  answerable code req site -> answerable code req site'.
Proof. unfold answerable, len. intros ->. tauto. Qed.

Lemma outgoing_Id (resp : EdgeResponse) (err : option error) :
  RespId (outgoing resp err) = RespId resp.
Proof. destruct err; reflexivity. Qed.

(** X3: on a stream of answerable requests (each with an unknown
    operation code and a loadpoint index not above the number of
    loadpoints, or with a write operation and a payload for a
    configured loadpoint) that ends with io.EOF, with a response stream
    that accepts every message, [handleRequest] returns after closing
    [done], having sent exactly one response per request, in the order
    of the requests, each with the id of its request; the site has as
    many loadpoints as before.  When the stream ends with another error
    the process exits with status 1. *)
Theorem handleRequest_serves_all (pending : list EdgeRequest) (gw : Gateway LP) :
  Forall (fun req => answerable code req (site gw)) pending ->
  (forall h m, send_reply (outS gw) h m = None) ->
  done gw = false ->
  (exists gw',
     handleRequest code pending EOF gw = Done (tt, gw') /\
     done gw' = true /\
     map RespId (sent (outS gw'))
     = rev (map Id pending) ++ map RespId (sent (outS gw)) /\
     List.length (site gw') = List.length (site gw)) /\
  (forall closing, closing <> EOF ->
     handleRequest code pending closing gw = Exit 1).
Proof.
  revert gw. induction pending as [| req rest IH]; intros gw Hall Hsend Hdone.
  - split.
    + exists {| outS := outS gw; site := site gw; done := true |}.
      cbn [handleRequest]. unfold close_done. rewrite Hdone. repeat split.
    + intros closing Hne. cbn [handleRequest].
      destruct closing; [contradiction | reflexivity | reflexivity].
  - inversion Hall as [| ? ? Hreq Hrest]; subst.
    destruct (apiRequest_answerable code req (site gw) Hreq)
      as (err & site' & Hrun & Hlen).
    pose proof (handleRequest_turn code req rest) as Hturn.
    destruct (IH (answered gw site' (outgoing (fresh req) err)))
      as [Hserve Hexit].
    + cbn [answered site]. eapply Forall_impl; [exact Hrest | ].
      intros r. apply answerable_length. exact Hlen.
    + exact Hsend.
    + exact Hdone.
    + split.
      * destruct Hserve as (gw' & Hrun' & Hdone' & Hids & Hlen').
        exists gw'. rewrite (Hturn EOF gw _ err site' Hrun), Hsend.
        split; [exact Hrun' | ]. split; [exact Hdone' | ].
        split; [ | cbn [answered site] in Hlen'; congruence].
        rewrite Hids. cbn [answered outS sent map rev].
        rewrite outgoing_Id, <- app_assoc. reflexivity.
      * intros closing Hne.
        rewrite (Hturn closing gw _ err site' Hrun), Hsend.
        now apply Hexit.
Qed.

(** X4: when every value can be encoded and the update stream accepts
    every message, [sendUpdates] returns at the end of the channel
    having sent one update per parameter, in order: the key, the
    encoded value, and as loadpoint number 0 for a parameter of the
    site and the loadpoint index plus one otherwise. *)
Theorem sendUpdates_sends_all (V : Type)
    (Encode : V -> list byte * option error)
    (params : list (Param V)) (out : SendStream UpdateRequest) :
  Forall (fun p => snd (Encode (ParamVal p)) = None) params ->
  (forall h m, send_reply out h m = None) ->
  sendUpdates V Encode params out
  = Done (tt, having_sent (map (update_of Encode) params) out).
Proof.
  revert out. induction params as [| p rest IH]; intros out Henc Hsend.
  - cbn. unfold io_ret, having_sent. destruct out; reflexivity.
  - inversion Henc as [| ? ? Hp Hrest]; subst.
    cbn [sendUpdates]. destruct (Encode (ParamVal p)) as [b e] eqn:Hb.
    cbn [snd] in Hp. subst e. unfold io_bind, Send. rewrite Hsend.
    rewrite IH; [ | exact Hrest | exact Hsend].
    unfold having_sent, update_of. cbn [send_reply sent map rev].
    rewrite Hb, <- app_assoc. reflexivity.
Qed.

(** X5: the loadpoint number an update carries for the loadpoint with
    index [n] is the number by which a request reaches that same
    loadpoint: a SetMode request with it, carrying a payload, has
    [SetMode] called on loadpoint [n] and on no other, and returns the
    untouched response and no error. *)
Theorem update_number_addresses_loadpoint (V : Type)
    (Encode : V -> list byte * option error) (param : Param V)
    (site : list LP) (n : nat) (l : LP) (id api : Z) (p : Payload) :
  LoadPoint param = Some (Z.of_nat n) ->
  Z.of_nat n + 1 < 2 ^ 31 ->
  site !! n = Some l ->
  cloud.select code api = Some cloud.SetMode ->
  let req := {| Id := id; Loadpoint := UpdLoadpoint (update_of Encode param);
                Api := api; ReqPayload := Some p |} in
  UpdLoadpoint (update_of Encode param) = Z.of_nat n + 1 /\
  apiRequest code req site
  = Done ((fresh req, None), <[n := loadpoint.SetMode (Stringval p) l]> site).
Proof.
  intros Hlp Hn Hl Hsel req.
  assert (Hnum : UpdLoadpoint (update_of Encode param) = Z.of_nat n + 1).
  { unfold update_of. cbn [UpdLoadpoint]. rewrite Hlp. unfold int32.
    change (2 ^ 31) with 2147483648 in *. change (2 ^ 32) with 4294967296.
    rewrite Z.mod_small by lia. lia. }
  split; [exact Hnum | ].
  exact (SetMode_forwarded code req site n l p Hsel Hnum Hl eq_refl).
Qed.

(** X6: a request with an unknown operation code, for a configured
    loadpoint or for none, reaches no loadpoint: the site stays as it
    is, the response has an empty payload, and what goes out carries
    the text "unknown api call" followed by the code in decimal; the
    loop goes on with the next request. *)
Theorem unknown_api_call_answered (req : EdgeRequest)
    (rest : list EdgeRequest) (closing : error) (gw : Gateway LP) :
  cloud.select code (Api req) = None ->
  Loadpoint req <= len (site gw) ->
  let m := with_Error ("unknown api call " ++ fmt_d (Api req)) (fresh req) in
  send_reply (outS gw) (sent (outS gw)) m = None ->
  apiRequest code req (site gw)
  = Done ((fresh req,
           Some (errorString ("unknown api call " ++ fmt_d (Api req)))),
          site gw) /\
  handleRequest code (req :: rest) closing gw
  = handleRequest code rest closing (answered gw (site gw) m).
Proof.
  intros Hsel Hlp m Hsend.
  pose proof (apiRequest_unknown code req (site gw) Hlp Hsel) as Hrun.
  split; [exact Hrun | ].
  rewrite (handleRequest_turn code req rest closing gw _ _ _ Hrun).
  cbn [outgoing]. unfold unknown_api_call. cbn [Go.Error].
  fold m. rewrite Hsend. reflexivity.
Qed.

End LoopRuns.

Section LoopRunsWitnesses.

Import pb edge.


(** three requests to two loadpoints: a SetMode for the first, an
    unknown code for the second, an unknown code for none *)
Lemma handleRequest_serves_all_witness :
  exists gw',
    handleRequest fixtures.numbered
      [fixtures.request 7 1 5 "now" 0; fixtures.request 8 2 99 "" 0;
       fixtures.request 9 0 99 "" 0]
      EOF (scenes.gateway (fixtures.accepting _)) = Done (tt, gw') /\
    map RespId (sent (outS gw')) = [9; 8; 7].
Proof.
  assert (Hall : Forall (fun req => answerable fixtures.numbered req
                                      scenes.two_loadpoints)
                   [fixtures.request 7 1 5 "now" 0;
                    fixtures.request 8 2 99 "" 0;
                    fixtures.request 9 0 99 "" 0]).
  { constructor.
    { right. split; [unfold len; simpl; lia | ].
      split; [discriminate | ].
      exists cloud.SetMode. split; reflexivity. }
    constructor.
    { left. split; [unfold len; simpl; lia | reflexivity]. }
    constructor.
    { left. split; [unfold len; simpl; lia | reflexivity]. }
    constructor. }
  destruct (proj1 (handleRequest_serves_all fixtures.numbered _
                     (scenes.gateway (fixtures.accepting _))
                     Hall (fun _ _ => eq_refl) eq_refl))
    as (gw' & Hrun & _ & Hids & _).
  exists gw'. split; [exact Hrun | exact Hids].
Defined.

(** two parameters, one of loadpoint 0 and one of the site *)
Lemma sendUpdates_sends_all_witness :
  sendUpdates Z scenes.low_byte
    [{| LoadPoint := Some 0; ParamKey := "chargePower"; ParamVal := 11 |};
     {| LoadPoint := None; ParamKey := "gridPower"; ParamVal := 7 |}]
    (fixtures.accepting _)
  = Done (tt,
          {| send_reply := send_reply (fixtures.accepting UpdateRequest);
             sent := [{| UpdLoadpoint := 0; Key := "gridPower";
                         Val := [x07]%byte |};
                      {| UpdLoadpoint := 1; Key := "chargePower";
                         Val := [x0b]%byte |}] |}).
Proof.
  assert (Henc : Forall (fun p => snd (scenes.low_byte (ParamVal p)) = None)
                   [{| LoadPoint := Some 0; ParamKey := "chargePower";
                       ParamVal := 11 |};
                    {| LoadPoint := None; ParamKey := "gridPower";
                       ParamVal := 7 |}]).
  { constructor; [reflexivity | ]. constructor; [reflexivity | constructor]. }
  exact (sendUpdates_sends_all Z scenes.low_byte _ (fixtures.accepting _)
           Henc (fun _ _ => eq_refl)).
Defined.

(** the update for loadpoint 1 of two, and the SetMode request that
    uses its number: the mode of the carport changes, the garage is as
    it was *)
Lemma update_number_addresses_loadpoint_witness :
  apiRequest fixtures.numbered (fixtures.request 3 2 5 "now" 0)
    scenes.two_loadpoints
  = Done ((fresh (fixtures.request 3 2 5 "now" 0), None),
          <[1%nat := loadpoint.SetMode "now"%string scenes.carport]>
            scenes.two_loadpoints).
Proof.
  exact (proj2 (update_number_addresses_loadpoint fixtures.numbered Z
                  scenes.low_byte
                  {| LoadPoint := Some 1; ParamKey := "mode"; ParamVal := 0 |}
                  scenes.two_loadpoints 1 scenes.carport 3 5
                  (fixtures.text_and_number "now" 0)
                  eq_refl eq_refl eq_refl eq_refl)).
Defined.

(** operation code 99 sent to the first loadpoint *)
Lemma unknown_api_call_answered_witness :
  apiRequest fixtures.numbered (fixtures.request 8 1 99 "" 0)
    scenes.two_loadpoints
  = Done ((fresh (fixtures.request 8 1 99 "" 0),
           Some (errorString "unknown api call 99")), scenes.two_loadpoints).
Proof.
  exact (proj1 (unknown_api_call_answered fixtures.numbered
                  (fixtures.request 8 1 99 "" 0) [] EOF
                  (scenes.gateway (fixtures.accepting _))
                  eq_refl ltac:(unfold len; simpl; lia) eq_refl)).
Defined.

End LoopRunsWitnesses.

(* ================================================================== *)
(** * The meters of the Amtron drivers                                 *)
(* ================================================================== *)

Section AmtronMeters.

Import charger.

(** the sum of three phase values in 32 bits does not wrap *)
Lemma uint32_sum3 (l1 l2 l3 : list byte) :
  uint32 (uint32 (word l1 + word l2) + word l3) = word l1 + word l2 + word l3.
Proof.
  pose proof (word_range l1). pose proof (word_range l2).
  pose proof (word_range l3).
  unfold uint32. change (2 ^ 32) with 4294967296.
  rewrite (Z.mod_small (word l1 + word l2)) by lia.
  apply Z.mod_small. lia.
Qed.

(** unfold a meter method down to the replies of the device *)
Ltac meter_open :=
  unfold io_bind, io_zoom, io_lift, io_ret,
    modbus.ReadHoldingRegisters, modbus.roundtrip,
    power_sum, phase_currents, reads_made, after_requests,
    reply1, reply2, reply3;
  cbn [modbus.device modbus.history fst snd app].

(** X7: [CurrentPower] of amtron_professional.go and of amtron_prof.go
    never panics: whatever the device answers, it returns the sum of
    the three phase powers read at 206, 208 and 210 (which cannot wrap
    in 32 bits) and no error, or 0 and the error of the first failed
    read, after which it reads no further. *)
Theorem CurrentPower_sum (c : modbus.Connection) :
  let r1 := reply1 206 c in
  let r2 := reply2 206 c in
  let r3 := reply3 206 c in
  let c' := after_requests (reads_made 206 r1 r2) c in
  (forall curr,
     AmtronProfessional.CurrentPower
       {| AmtronProfessional.conn := c; AmtronProfessional.curr := curr |}
     = Done (power_sum r1 r2 r3,
             {| AmtronProfessional.conn := c';
                AmtronProfessional.curr := curr |})) /\
  (forall enabled current,
     AmtronProf.CurrentPower
       {| AmtronProf.conn := c; AmtronProf.enabled := enabled;
          AmtronProf.current := current |}
     = Done (power_sum r1 r2 r3,
             {| AmtronProf.conn := c'; AmtronProf.enabled := enabled;
                AmtronProf.current := current |})).
Proof.
  intros r1 r2 r3 c'. subst r1 r2 r3 c'. split.
  - intros curr.
    unfold AmtronProfessional.CurrentPower, AmtronProfessional.on_conn,
      AmtronProfessional.amtronProfessionalRegPower.
    meter_open. cbn [AmtronProfessional.conn AmtronProfessional.curr].
    change (206 + 2) with 208. change (206 + 4) with 210.
    destruct (modbus.device c (modbus.history c) _) as [l1 [e1 | ]];
      [reflexivity | ].
    rewrite (toUint32_word l1).
    cbn [bind AmtronProfessional.conn AmtronProfessional.curr
         modbus.device modbus.history fst snd].
    destruct (modbus.device c (_ :: modbus.history c) _) as [l2 [e2 | ]];
      [reflexivity | ].
    rewrite (toUint32_word l2).
    cbn [bind AmtronProfessional.conn AmtronProfessional.curr
         modbus.device modbus.history fst snd].
    destruct (modbus.device c (_ :: _ :: modbus.history c) _) as [l3 [e3 | ]];
      [reflexivity | ].
    rewrite (toUint32_word l3). cbn [bind fst snd].
    rewrite uint32_sum3. reflexivity.
  - intros enabled current.
    unfold AmtronProf.CurrentPower, AmtronProf.on_conn,
      AmtronProf.amtronProfRegPower.
    meter_open. cbn [AmtronProf.conn AmtronProf.enabled AmtronProf.current].
    change (206 + 2) with 208. change (206 + 4) with 210.
    destruct (modbus.device c (modbus.history c) _) as [l1 [e1 | ]];
      [reflexivity | ].
    rewrite (toUint32_word l1).
    cbn [bind AmtronProf.conn AmtronProf.enabled AmtronProf.current
         modbus.device modbus.history fst snd].
    destruct (modbus.device c (_ :: modbus.history c) _) as [l2 [e2 | ]];
      [reflexivity | ].
    rewrite (toUint32_word l2).
    cbn [bind AmtronProf.conn AmtronProf.enabled AmtronProf.current
         modbus.device modbus.history fst snd].
    destruct (modbus.device c (_ :: _ :: modbus.history c) _) as [l3 [e3 | ]];
      [reflexivity | ].
    rewrite (toUint32_word l3). cbn [bind fst snd].
    rewrite uint32_sum3. reflexivity.
Qed.

(** X8: [Currents] of amtron_professional.go and of amtron_prof.go
    never panics either, although it converts the bytes of a read
    before it looks at the error of that read: it returns the three
    phase currents read at 212, 214 and 216, each divided by 1000, or
    three zeros and the error of the first failed read, after which it
    reads no further. *)
Theorem Currents_phases (c : modbus.Connection) :
  let r1 := reply1 212 c in
  let r2 := reply2 212 c in
  let r3 := reply3 212 c in
  let c' := after_requests (reads_made 212 r1 r2) c in
  (forall curr,
     AmtronProfessional.Currents
       {| AmtronProfessional.conn := c; AmtronProfessional.curr := curr |}
     = Done (phase_currents r1 r2 r3,
             {| AmtronProfessional.conn := c';
                AmtronProfessional.curr := curr |})) /\
  (forall enabled current,
     AmtronProf.Currents
       {| AmtronProf.conn := c; AmtronProf.enabled := enabled;
          AmtronProf.current := current |}
     = Done (phase_currents r1 r2 r3,
             {| AmtronProf.conn := c'; AmtronProf.enabled := enabled;
                AmtronProf.current := current |})).
Proof.
  intros r1 r2 r3 c'. subst r1 r2 r3 c'. split.
  - intros curr.
    unfold AmtronProfessional.Currents, AmtronProfessional.on_conn,
      AmtronProfessional.amtronProfessionalRegCurrent.
    meter_open. cbn [AmtronProfessional.conn AmtronProfessional.curr].
    change (212 + 2) with 214. change (212 + 4) with 216.
    destruct (modbus.device c (modbus.history c) _) as [l1 e1].
    rewrite (toUint32_word l1).
    cbn [bind AmtronProfessional.conn AmtronProfessional.curr
         modbus.device modbus.history fst snd].
    destruct e1 as [e1 | ]; [reflexivity | ].
    cbn [AmtronProfessional.conn AmtronProfessional.curr
         modbus.device modbus.history].
    destruct (modbus.device c (_ :: modbus.history c) _) as [l2 e2].
    rewrite (toUint32_word l2).
    cbn [bind AmtronProfessional.conn AmtronProfessional.curr
         modbus.device modbus.history fst snd].
    destruct e2 as [e2 | ]; [reflexivity | ].
    cbn [AmtronProfessional.conn AmtronProfessional.curr
         modbus.device modbus.history].
    destruct (modbus.device c (_ :: _ :: modbus.history c) _) as [l3 e3].
    rewrite (toUint32_word l3). cbn [bind fst snd].
    destruct e3 as [e3 | ]; reflexivity.
  - intros enabled current.
    unfold AmtronProf.Currents, AmtronProf.on_conn,
      AmtronProf.amtronProfRegCurrent.
    meter_open. cbn [AmtronProf.conn AmtronProf.enabled AmtronProf.current].
    change (212 + 2) with 214. change (212 + 4) with 216.
    destruct (modbus.device c (modbus.history c) _) as [l1 e1].
    rewrite (toUint32_word l1).
    cbn [bind AmtronProf.conn AmtronProf.enabled AmtronProf.current
         modbus.device modbus.history fst snd].
    destruct e1 as [e1 | ]; [reflexivity | ].
    cbn [AmtronProf.conn AmtronProf.enabled AmtronProf.current
         modbus.device modbus.history].
    destruct (modbus.device c (_ :: modbus.history c) _) as [l2 e2].
    rewrite (toUint32_word l2).
    cbn [bind AmtronProf.conn AmtronProf.enabled AmtronProf.current
         modbus.device modbus.history fst snd].
    destruct e2 as [e2 | ]; [reflexivity | ].
    cbn [AmtronProf.conn AmtronProf.enabled AmtronProf.current
         modbus.device modbus.history].
    destruct (modbus.device c (_ :: _ :: modbus.history c) _) as [l3 e3].
    rewrite (toUint32_word l3). cbn [bind fst snd].
    destruct e3 as [e3 | ]; reflexivity.
Qed.

End AmtronMeters.

(* ================================================================== *)
(** * The Amtron drivers at the edges of a read                        *)
(* ================================================================== *)

Section AmtronReadEdges.

(** X9: [Status] of the three Amtron drivers returns [StatusNone] and
    the error of the read when the read fails, whatever bytes came with
    it, and panics on the index when a read that succeeded delivered
    fewer than two bytes. *)
Theorem Status_read_edges (c : modbus.Connection) :
  let r := modbus.device c (modbus.history c) (modbus.ReadHolding 122 1) in
  let c' := after_request (modbus.ReadHolding 122 1) c in
  (forall b e, r = (b, Some e) ->
     (forall curr,
        AmtronProfessional.Status
          {| AmtronProfessional.conn := c; AmtronProfessional.curr := curr |}
        = Done ((api.StatusNone, Some e),
                {| AmtronProfessional.conn := c';
                   AmtronProfessional.curr := curr |})) /\
     (forall enabled current,
        AmtronProf.Status
          {| AmtronProf.conn := c; AmtronProf.enabled := enabled;
             AmtronProf.current := current |}
        = Done ((api.StatusNone, Some e),
                {| AmtronProf.conn := c'; AmtronProf.enabled := enabled;
                   AmtronProf.current := current |})) /\
     AmtronPlain.Status {| AmtronPlain.conn := c |}
     = Done ((api.StatusNone, Some e), {| AmtronPlain.conn := c' |})) /\
  (forall b, r = (b, None) -> len b < 2 ->
     (forall curr,
        AmtronProfessional.Status
          {| AmtronProfessional.conn := c; AmtronProfessional.curr := curr |}
        = Panic "index out of range") /\
     (forall enabled current,
        AmtronProf.Status
          {| AmtronProf.conn := c; AmtronProf.enabled := enabled;
             AmtronProf.current := current |}
        = Panic "index out of range") /\
     AmtronPlain.Status {| AmtronPlain.conn := c |}
     = Panic "index out of range").
Proof.
  intros r c'. subst r c'. split.
  - intros b e Hr. repeat split; intros;
      unfold AmtronProfessional.Status, AmtronProfessional.on_conn,
        AmtronProf.Status, AmtronProf.on_conn,
        AmtronPlain.Status, AmtronPlain.on_conn,
        io_bind, io_zoom, modbus.ReadHoldingRegisters, modbus.roundtrip;
      cbn [AmtronProfessional.conn AmtronProf.conn AmtronPlain.conn];
      unfold AmtronProfessional.amtronProfessionalRegStatus,
        AmtronProf.amtronProfRegStatus, AmtronPlain.amtronRegStatus;
      rewrite Hr; reflexivity.
  - intros b Hr Hlen.
    assert (Hidx : index b 1 = Panic "index out of range").
    { unfold index. destruct b as [| x [| y b]]; try reflexivity.
      unfold len in Hlen. simpl in Hlen. lia. }
    repeat split; intros;
      unfold AmtronProfessional.Status, AmtronProfessional.on_conn,
        AmtronProf.Status, AmtronProf.on_conn,
        AmtronPlain.Status, AmtronPlain.on_conn,
        io_bind, io_zoom, io_lift, modbus.ReadHoldingRegisters,
        modbus.roundtrip;
      cbn [AmtronProfessional.conn AmtronProf.conn AmtronPlain.conn];
      unfold AmtronProfessional.amtronProfessionalRegStatus,
        AmtronProf.amtronProfRegStatus, AmtronPlain.amtronRegStatus;
      rewrite Hr, Hidx; reflexivity.
Qed.

(** X10: when the read of the amps-config register succeeds with its
    two bytes, [Enabled] of amtron_professional.go, which decodes them
    big-endian and tests for "not 0", and [Enabled] of the driver
    without state, which decodes them little-endian and tests for
    "above 0", give the same answer: enabled exactly when the bytes are
    not both zero. *)
Theorem Enabled_register (c : modbus.Connection) (hi lo : byte) (curr : Z) :
  modbus.device c (modbus.history c) (modbus.ReadHolding 1000 1)
  = ([hi; lo], None) ->
  let c' := after_request (modbus.ReadHolding 1000 1) c in
  AmtronProfessional.Enabled
    {| AmtronProfessional.conn := c; AmtronProfessional.curr := curr |}
  = Done ((nonzero hi lo, None),
          {| AmtronProfessional.conn := c'; AmtronProfessional.curr := curr |}) /\
  AmtronPlain.Enabled {| AmtronPlain.conn := c |}
  = Done ((nonzero hi lo, None), {| AmtronPlain.conn := c' |}) /\
  (nonzero hi lo = true <-> 256 * u8 hi + u8 lo <> 0).
Proof.
  intros Hr c'. subst c'.
  pose proof (u8_range hi) as Hhi. pose proof (u8_range lo) as Hlo.
  assert (Hnz : nonzero hi lo = true <-> 256 * u8 hi + u8 lo <> 0).
  { unfold nonzero.
    destruct (Z.eqb_spec (u8 hi) 0); destruct (Z.eqb_spec (u8 lo) 0);
      cbn; split; intros; try lia; try discriminate; reflexivity. }
  repeat split; try apply Hnz.
  - unfold AmtronProfessional.Enabled, AmtronProfessional.on_conn,
      io_bind, io_zoom, io_lift, modbus.ReadHoldingRegisters, modbus.roundtrip.
    cbn [AmtronProfessional.conn AmtronProfessional.curr].
    unfold AmtronProfessional.amtronProfessionalRegAmpsConfig.
    rewrite Hr, BigEndian_Uint16_cons. cbn [bind io_ret]. repeat f_equal.
    unfold nonzero.
    destruct (Z.eqb_spec (256 * u8 hi + u8 lo) 0);
      destruct (Z.eqb_spec (u8 hi) 0); destruct (Z.eqb_spec (u8 lo) 0);
      cbn; try reflexivity; lia.
  - unfold AmtronPlain.Enabled, AmtronPlain.on_conn,
      io_bind, io_zoom, io_lift, modbus.ReadHoldingRegisters, modbus.roundtrip.
    cbn [AmtronPlain.conn]. unfold AmtronPlain.amtronRegAmpsConfig.
    rewrite Hr, LittleEndian_Uint16_cons. cbn [bind io_ret]. repeat f_equal.
    unfold nonzero.
    destruct (Z.ltb_spec 0 (u8 hi + 256 * u8 lo));
      destruct (Z.eqb_spec (u8 hi) 0); destruct (Z.eqb_spec (u8 lo) 0);
      cbn; try reflexivity; lia.
Qed.

(** the register holds 0x0100: big-endian 256, little-endian 1 *)
Lemma Enabled_register_witness :
  AmtronProfessional.Enabled
    {| AmtronProfessional.conn := fixtures.steady [x01; x00]%byte;
       AmtronProfessional.curr := 6 |}
  = Done ((true, None),
          {| AmtronProfessional.conn :=
               after_request (modbus.ReadHolding 1000 1)
                 (fixtures.steady [x01; x00]%byte);
             AmtronProfessional.curr := 6 |}).
Proof.
  exact (proj1 (Enabled_register (fixtures.steady [x01; x00]%byte)
                  x01%byte x00%byte 6 eq_refl)).
Defined.

End AmtronReadEdges.

(* ================================================================== *)
(** * amtron_professional.go: what keeps the stored current            *)
(* ================================================================== *)

Section AmtronProfessionalRestore.

Import AmtronProfessional.

Lemma leaves_ret {A} (a : A) : leaves_curr (io_ret a).
Proof. intros wb a' wb' [= _ <-]. reflexivity. Qed.

Lemma leaves_lift {A} (m : run A) : leaves_curr (io_lift m).
Proof.
  intros wb a wb'. unfold io_lift. destruct m; simpl; try discriminate.
  intros [= _ <-]. reflexivity.
Qed.

Lemma leaves_on_conn {A} (m : io modbus.Connection A) : leaves_curr (on_conn m).
Proof.
  intros wb a wb'. unfold on_conn, io_zoom.
  destruct (m (conn wb)) as [[a' c'] | | ]; try discriminate.
  intros [= _ <-]. reflexivity.
Qed.

Lemma leaves_bind {A B} (m : io AmtronProfessional A)
    (k : A -> io AmtronProfessional B) :
  leaves_curr m -> (forall a, leaves_curr (k a)) -> leaves_curr (io_bind m k).
Proof.
  intros Hm Hk wb b wb'. unfold io_bind.
  destruct (m wb) as [[a wb1] | | ] eqn:Hrun; try discriminate.
  intros Hrun'. rewrite (Hk a wb1 b wb' Hrun'). exact (Hm wb a wb1 Hrun).
Qed.

Ltac leaves_walk :=
  repeat first
    [ apply leaves_ret | apply leaves_lift | apply leaves_on_conn
    | apply leaves_bind; [ | intros ? ]
    | match goal with
      | |- leaves_curr (match ?x with _ => _ end) => destruct x eqn:?
      end ].

Lemma leaves_Status : leaves_curr Status.
Proof. unfold Status. leaves_walk. Qed.

Lemma leaves_Enabled : leaves_curr Enabled.
Proof. unfold Enabled. leaves_walk. Qed.

Lemma leaves_CurrentPower : leaves_curr CurrentPower.
Proof. unfold CurrentPower. leaves_walk. Qed.

Lemma leaves_Currents : leaves_curr Currents.
Proof. unfold Currents. leaves_walk. Qed.

(** [Enable] leaves a stored current that is a [uint16] as it is *)
Lemma Enable_curr (enable : bool) (wb wb' : AmtronProfessional)
    (err : option error) :
  0 <= curr wb < 2 ^ 16 ->
  Enable enable wb = Done (err, wb') -> curr wb' = curr wb.
Proof.
  intros Hrange. unfold Enable, io_bind at 1, io_get.
  assert (Hcur : uint16 (curr wb) = curr wb)
    by (unfold uint16; apply Z.mod_small; lia).
  destruct enable; intros Hrun; apply MaxCurrent_curr in Hrun; rewrite Hrun.
  - rewrite Hcur. destruct err; [reflexivity | ].
    destruct (0 <? curr wb); reflexivity.
  - destruct err; reflexivity.
Qed.

Lemma invoke_curr (k : call) (wb wb' : AmtronProfessional) :
  sets_current k = false ->
  0 <= curr wb < 2 ^ 16 ->
  invoke k wb = Done (tt, wb') -> curr wb' = curr wb.
Proof.
  intros Hk Hrange.
  destruct k; try discriminate; cbn [invoke]; unfold io_bind;
    [ destruct (Status wb) as [[r wb1] | | ] eqn:Hrun
    | destruct (Enabled wb) as [[r wb1] | | ] eqn:Hrun
    | destruct (Enable enable wb) as [[r wb1] | | ] eqn:Hrun
    | destruct (CurrentPower wb) as [[r wb1] | | ] eqn:Hrun
    | destruct (Currents wb) as [[r wb1] | | ] eqn:Hrun ];
    try discriminate; intros [= <-].
  - exact (leaves_Status wb r wb1 Hrun).
  - exact (leaves_Enabled wb r wb1 Hrun).
  - exact (Enable_curr enable wb wb1 r Hrange Hrun).
  - exact (leaves_CurrentPower wb r wb1 Hrun).
  - exact (leaves_Currents wb r wb1 Hrun).
Qed.

(** X11: on the amtron_professional.go driver no call other than
    [MaxCurrent] changes the stored current: after any run of Status,
    Enabled, Enable, CurrentPower and Currents calls, whatever the
    device answered, the stored current is the one from before, and a
    following [Enable(true)] writes exactly that current to the
    amps-config register. *)
Theorem stored_current_survives (ks : list call) (wb wb' : AmtronProfessional) :
  Forall (fun k => sets_current k = false) ks ->
  0 <= curr wb < 2 ^ 16 ->
  invoke_all ks wb = Done (tt, wb') ->
  curr wb' = curr wb /\
  exists err wb'',
    Enable true wb' = Done (err, wb'') /\
    modbus.history (conn wb'')
    = modbus.WriteSingle amtronProfessionalRegAmpsConfig (curr wb)
      :: modbus.history (conn wb').
Proof.
  intros Hks Hrange Hrun.
  assert (Hcurr : curr wb' = curr wb).
  { revert wb Hrange Hrun. induction Hks as [| k ks Hk _ IH]; intros wb Hrange.
    - intros [= <-]. reflexivity.
    - cbn [invoke_all]. unfold io_bind.
      destruct (invoke k wb) as [[[] wb1] | | ] eqn:Hone; try discriminate.
      intros Hrest. pose proof (invoke_curr k wb wb1 Hk Hrange Hone) as H1.
      rewrite <- H1. apply IH; [rewrite H1; exact Hrange | exact Hrest]. }
  split; [exact Hcurr | ].
  destruct (Enable_writes true wb') as (err & wb'' & Hen & Hh & _).
  exists err, wb''. split; [exact Hen | ].
  rewrite Hh, Hcurr. unfold uint16. rewrite Z.mod_small by lia. reflexivity.
Qed.

(** a driver holding 10 A is disabled, asked for its status and its
    power, and keeps the 10 A *)
Lemma stored_current_survives_witness :
  exists wb',
    invoke_all [CallEnable false; CallStatus; CallCurrentPower]
      {| conn := fixtures.steady [x00; x03]%byte; curr := 10 |}
    = Done (tt, wb') /\ curr wb' = 10.
Proof.
  assert (Hks : Forall (fun k => sets_current k = false)
                  [CallEnable false; CallStatus; CallCurrentPower]).
  { repeat (constructor; [reflexivity | ]). constructor. }
  eexists. split; [vm_compute; reflexivity | ].
  exact (proj1 (stored_current_survives _
                  {| conn := fixtures.steady [x00; x03]%byte; curr := 10 |} _
                  Hks ltac:(simpl; lia) eq_refl)).
Defined.

End AmtronProfessionalRestore.

(* ================================================================== *)
(** * amtron_prof.go: the cached flag and the device                   *)
(* ================================================================== *)

Section AmtronProfFlag.

Import AmtronProf.

(** X12: [Enable(b)] of amtron_prof.go sets the cached flag to [b]
    whether the device took the write or not, so [Enabled] reports [b]
    afterwards even when [Enable] returned an error; it makes a device
    write only when the driver was enabled before the call; and
    [Enable(false)] overwrites the stored current with 0. *)
Theorem amtron_prof_Enable_sets_flag (wb : AmtronProfessional) (b : bool) :
  let v := if b then current wb else 0 in
  let reply := modbus.device (conn wb) (modbus.history (conn wb))
                 (modbus.WriteSingle amtronProfRegAmpsConfig (uint16 v)) in
  let wb' :=
    {| conn := if enabled wb
               then after_request
                      (modbus.WriteSingle amtronProfRegAmpsConfig (uint16 v))
                      (conn wb)
               else conn wb;
       enabled := b;
       current := v |} in
  Enable b wb = Done (if enabled wb then snd reply else None, wb') /\
  Enabled wb' = Done ((b, None), wb').
Proof.
  intros v reply wb'. subst v reply wb'. split; [ | reflexivity].
  destruct wb as [c en cur].
  unfold Enable, MaxCurrent, io_bind, io_get, set_current, set_enabled,
    on_conn, io_zoom, modbus.WriteSingleRegister, modbus.roundtrip,
    after_request.
  destruct b, en; cbn;
    try reflexivity;
    match goal with
    | |- context [modbus.device c (modbus.history c) ?r] =>
        destruct (modbus.device c (modbus.history c) r) as [bs e]
    end; reflexivity.
Qed.

(** X13: disabling and enabling again an enabled amtron_prof.go driver
    leaves the device with the 0 A of the disabling: the only request
    the device sees is the write of 0, [Enable(true)] returns nil
    without a request, the stored current is 0, and [Enabled] reports
    true. *)
Theorem amtron_prof_disable_enable (c : modbus.Connection) (stored : Z) :
  let c' := after_request (modbus.WriteSingle amtronProfRegAmpsConfig 0) c in
  exists err,
    Enable false {| conn := c; enabled := true; current := stored |}
    = Done (err, {| conn := c'; enabled := false; current := 0 |}) /\
    Enable true {| conn := c'; enabled := false; current := 0 |}
    = Done (None, {| conn := c'; enabled := true; current := 0 |}) /\
    Enabled {| conn := c'; enabled := true; current := 0 |}
    = Done ((true, None), {| conn := c'; enabled := true; current := 0 |}).
Proof.
  intros c'. subst c'.
  unfold Enable at 1. cbn [negb]. unfold io_bind at 1.
  rewrite MaxCurrent_enabled. cbn.
  eexists. split; [reflexivity | split; reflexivity].
Qed.

End AmtronProfFlag.

(* ================================================================== *)
(** * The Amtron driver without stored state                           *)
(* ================================================================== *)

Section AmtronPlainEdges.

Lemma toUint32_plain_long (b : list byte) :
  4 <= len b -> AmtronPlain.toUint32 b = Done (word b).
Proof.
  intros Hlen. destruct b as [| b0 [| b1 [| b2 [| b3 rest]]]];
    try (unfold len in Hlen; simpl in Hlen; lia).
  rewrite <- toUint32_word. unfold AmtronPlain.toUint32, charger.toUint32.
  destruct (Z.ltb_spec (len (b0 :: b1 :: b2 :: b3 :: rest)) 4); [lia | ].
  reflexivity.
Qed.

Lemma toUint32_plain_short (b : list byte) :
  len b < 4 -> AmtronPlain.toUint32 b = Panic "index out of range".
Proof.
  intros Hlen. destruct b as [| b0 [| b1 [| b2 [| b3 rest]]]];
    try (unfold len in Hlen; simpl in Hlen; lia);
    unfold AmtronPlain.toUint32;
    rewrite ?LittleEndian_Uint16_cons; reflexivity.
Qed.

(** X14: [toUint32] of the driver without state has no length check: on
    a slice of four bytes or more it returns what the checked
    [toUint32] of the other two drivers returns, and on a shorter
    slice, where the checked one returns 0, it panics on an index. *)
Theorem toUint32_unchecked (b : list byte) :
  (4 <= len b -> AmtronPlain.toUint32 b = charger.toUint32 b) /\
  (len b < 4 ->
   AmtronPlain.toUint32 b = Panic "index out of range" /\
   charger.toUint32 b = Done 0).
Proof.
  split.
  - intros Hlen. rewrite toUint32_word. now apply toUint32_plain_long.
  - intros Hlen. split; [now apply toUint32_plain_short | ].
    now apply toUint32_short.
Qed.

(** X15: in [TotalEnergy] of the driver without state the test for a
    phase that is not there, [lEnergy == 0xffffffff], never holds,
    because [toUint32] returns at most 130815: when the three reads
    succeed with four bytes or more each, the result is the plain sum
    of the three values, not divided, also for a phase whose bytes are
    all 0xFF, which counts as 130815. *)
Theorem TotalEnergy_plain_sum (c : modbus.Connection) (l1 l2 l3 : list byte) :
  reply1 200 c = (l1, None) -> reply2 200 c = (l2, None) ->
  reply3 200 c = (l3, None) ->
  4 <= len l1 -> 4 <= len l2 -> 4 <= len l3 ->
  AmtronPlain.TotalEnergy {| AmtronPlain.conn := c |}
  = Done ((float64_of_uint (word l1 + word l2 + word l3), None),
          {| AmtronPlain.conn :=
               after_requests
                 [modbus.ReadHolding 204 2; modbus.ReadHolding 202 2;
                  modbus.ReadHolding 200 2] c |}) /\
  (word l2 =? 4294967295) = false /\ (word l3 =? 4294967295) = false /\
  word [xff; xff; xff; xff]%byte = 130815.
Proof.
  unfold reply1, reply2, reply3. change (200 + 2) with 202.
  change (200 + 4) with 204. intros H1 H2 H3 Hl1 Hl2 Hl3.
  pose proof (word_range l2) as Hw2. pose proof (word_range l3) as Hw3.
  assert (Hs2 : (word l2 =? 4294967295) = false) by (apply Z.eqb_neq; lia).
  assert (Hs3 : (word l3 =? 4294967295) = false) by (apply Z.eqb_neq; lia).
  split; [ | repeat split; assumption].
  unfold AmtronPlain.TotalEnergy, AmtronPlain.on_conn, io_bind, io_zoom,
    io_lift, io_ret, modbus.ReadHoldingRegisters, modbus.roundtrip,
    AmtronPlain.amtronRegEnergy, after_requests.
  cbn [AmtronPlain.conn modbus.device modbus.history app].
  change (200 + 2) with 202. change (200 + 4) with 204.
  rewrite H1. rewrite (toUint32_plain_long l1 Hl1).
  cbn [bind AmtronPlain.conn modbus.device modbus.history].
  rewrite H2. rewrite (toUint32_plain_long l2 Hl2).
  cbn [bind AmtronPlain.conn modbus.device modbus.history].
  rewrite H3. rewrite (toUint32_plain_long l3 Hl3).
  cbn [bind]. rewrite Hs2, Hs3, uint32_sum3. reflexivity.
Qed.

(** every phase register reads 0xFFFFFFFF: three times 130815 *)
Lemma TotalEnergy_plain_sum_witness :
  exists wb,
    AmtronPlain.TotalEnergy
      {| AmtronPlain.conn := fixtures.steady [xff; xff; xff; xff]%byte |}
    = Done ((float64_of_uint 392445, None), wb).
Proof.
  eexists.
  exact (proj1 (TotalEnergy_plain_sum
                  (fixtures.steady [xff; xff; xff; xff]%byte)
                  [xff; xff; xff; xff]%byte [xff; xff; xff; xff]%byte
                  [xff; xff; xff; xff]%byte
                  eq_refl eq_refl eq_refl
                  ltac:(unfold len; simpl; lia) ltac:(unfold len; simpl; lia)
                  ltac:(unfold len; simpl; lia))).
Defined.

(** X16: when the first read fails and comes with fewer than four
    bytes, [Currents] of the driver without state panics, because it
    converts the bytes before it looks at the error, while
    [CurrentPower] and [TotalEnergy], which look at the error first,
    return 0 and the error. *)
Theorem Currents_plain_panics (c : modbus.Connection) (b : list byte) (e : error) :
  len b < 4 ->
  (reply1 212 c = (b, Some e) ->
   AmtronPlain.Currents {| AmtronPlain.conn := c |}
   = Panic "index out of range") /\
  (reply1 206 c = (b, Some e) ->
   AmtronPlain.CurrentPower {| AmtronPlain.conn := c |}
   = Done ((0%float, Some e),
           {| AmtronPlain.conn :=
                after_request (modbus.ReadHolding 206 2) c |})) /\
  (reply1 200 c = (b, Some e) ->
   AmtronPlain.TotalEnergy {| AmtronPlain.conn := c |}
   = Done ((0%float, Some e),
           {| AmtronPlain.conn :=
                after_request (modbus.ReadHolding 200 2) c |})).
Proof.
  intros Hlen. unfold reply1. repeat split; intros Hr.
  - unfold AmtronPlain.Currents, AmtronPlain.on_conn, io_bind, io_zoom,
      io_lift, modbus.ReadHoldingRegisters, modbus.roundtrip,
      AmtronPlain.amtronRegCurrent.
    cbn [AmtronPlain.conn]. rewrite Hr.
    rewrite (toUint32_plain_short b Hlen). reflexivity.
  - unfold AmtronPlain.CurrentPower, AmtronPlain.on_conn, io_bind, io_zoom,
      modbus.ReadHoldingRegisters, modbus.roundtrip,
      AmtronPlain.amtronRegPower.
    cbn [AmtronPlain.conn]. rewrite Hr. reflexivity.
  - unfold AmtronPlain.TotalEnergy, AmtronPlain.on_conn, io_bind, io_zoom,
      modbus.ReadHoldingRegisters, modbus.roundtrip,
      AmtronPlain.amtronRegEnergy.
    cbn [AmtronPlain.conn]. rewrite Hr. reflexivity.
Qed.

(** a device that fails every request and delivers no bytes *)
Lemma Currents_plain_panics_witness :
  AmtronPlain.Currents {| AmtronPlain.conn := fixtures.broken |}
  = Panic "index out of range".
Proof.
  exact (proj1 (Currents_plain_panics fixtures.broken []
                  (errorString "timeout") ltac:(unfold len; simpl; lia))
           eq_refl).
Defined.

End AmtronPlainEdges.

(* ================================================================== *)
(** * FritzDECT: what Status and Enabled can return                    *)
(* ================================================================== *)

Section FritzDECTRange.

Import FritzDECT.

(** [ParseBool] returns true only without an error, and only for the
    six texts that mean true *)
Lemma ParseBool_true (s : string) (err : option error) :
  ParseBool s = (true, err) -> err = None /\ In s true_texts.
Proof.
  unfold ParseBool, true_texts.
  destruct (String.eqb_spec s "1") as [-> | _]; cbn [orb].
  { intros [= <-]. split; [reflexivity | simpl; tauto]. }
  destruct (String.eqb_spec s "t") as [-> | _]; cbn [orb].
  { intros [= <-]. split; [reflexivity | simpl; tauto]. }
  destruct (String.eqb_spec s "T") as [-> | _]; cbn [orb].
  { intros [= <-]. split; [reflexivity | simpl; tauto]. }
  destruct (String.eqb_spec s "TRUE") as [-> | _]; cbn [orb].
  { intros [= <-]. split; [reflexivity | simpl; tauto]. }
  destruct (String.eqb_spec s "true") as [-> | _]; cbn [orb].
  { intros [= <-]. split; [reflexivity | simpl; tauto]. }
  destruct (String.eqb_spec s "True") as [-> | _]; cbn [orb].
  { intros [= <-]. split; [reflexivity | simpl; tauto]. }
  destruct (_ || _)%bool; discriminate.
Qed.

(** [Enabled], whatever the box answers *)
Lemma Enabled_cases (fd : FritzDECT) :
  exists on err,
    Enabled fd = Done ((on, err), after_cmd "getswitchstate" fd) /\
    (on = true ->
     err = None /\
     exists resp, answer "getswitchstate" fd = (resp, None) /\
                  In resp true_texts) /\
    (fst (answer "getswitchstate" fd) = "inval"%string ->
     snd (answer "getswitchstate" fd) = None ->
     on = false /\ err = Some ErrNotAvailable).
Proof.
  unfold Enabled, io_bind. rewrite on_conn_ExecCmd.
  destruct (answer "getswitchstate" fd) as [resp [e | ]] eqn:Hans.
  - exists false, (Some e). split; [reflexivity | ].
    split; [discriminate | ]. cbn. discriminate.
  - destruct (String.eqb_spec resp "inval") as [-> | Hne].
    + exists false, (Some ErrNotAvailable). split; [reflexivity | ].
      split; [discriminate | ]. intros _ _. split; reflexivity.
    + destruct (ParseBool resp) as [on err] eqn:Hparse.
      exists on, err. split; [reflexivity | ]. split.
      * intros ->. destruct (ParseBool_true resp err Hparse) as [-> Hin].
        split; [reflexivity | ]. exists resp. split; [reflexivity | exact Hin].
      * cbn. intros Hinval. contradiction.
Qed.

(** X17: [Enabled] of the FritzDECT charger never panics and makes one
    request; it reports the switch as on only when the box answered
    without an error with one of the six texts that parse to true, and
    then without an error of its own. *)
Theorem FritzDECT_Enabled_on (fd : FritzDECT) :
  exists on err,
    Enabled fd = Done ((on, err), after_cmd "getswitchstate" fd) /\
    (on = true ->
     err = None /\
     exists resp, answer "getswitchstate" fd = (resp, None) /\
                  In resp true_texts).
Proof.
  destruct (Enabled_cases fd) as (on & err & Hrun & Hon & _).
  now exists on, err.
Qed.

(** X18: [Status] of the FritzDECT charger never panics; it returns
    none of the states A, D, E, F: it returns no state, and then an
    error, or B or C; it makes one request or two, and leaves the
    standby power as it is. *)
Theorem FritzDECT_Status_range (fd : FritzDECT) :
  exists s err fd',
    Status fd = Done ((s, err), fd') /\
    (s = api.StatusNone \/ s = api.StatusB \/ s = api.StatusC) /\
    (s = api.StatusNone -> err <> None) /\
    (exists r,
       fd' = after_box_requests [fritzdect.ReqExecCmd "getswitchpresent"] fd \/
       fd' = after_box_requests [r; fritzdect.ReqExecCmd "getswitchpresent"] fd).
Proof.
  unfold Status, io_bind at 1. rewrite on_conn_ExecCmd.
  destruct (answer "getswitchpresent" fd) as [resp [e | ]] eqn:Hans.
  { eexists _, _, _. split; [reflexivity | ].
    split; [now left | ]. split; [discriminate | ].
    exists fritzdect.ReqCurrentPower. left. reflexivity. }
  destruct (ParseBool resp) as [present [pe | ]] eqn:Hparse.
  { eexists _, _, _. split; [reflexivity | ].
    split; [now left | ]. split; [discriminate | ].
    exists fritzdect.ReqCurrentPower. left. reflexivity. }
  destruct present; cbn [negb].
  2:{ eexists _, _, _. split; [reflexivity | ].
      split; [now left | ]. split; [discriminate | ].
      exists fritzdect.ReqCurrentPower. left. reflexivity. }
  unfold io_bind at 1, io_get. cbn [after_cmd standbypower].
  destruct (PrimFloat.ltb (standbypower fd) 0).
  - unfold io_bind.
    destruct (Enabled_cases (after_cmd "getswitchpresent" fd))
      as (on & err & Hrun & _).
    rewrite Hrun. eexists _, _, _. split; [reflexivity | ].
    split; [destruct on; [right; now right | right; now left] | ].
    split; [destruct on; discriminate | ].
    exists (fritzdect.ReqExecCmd "getswitchstate"). right. reflexivity.
  - unfold io_bind, on_conn, io_zoom, fritzdect.CurrentPower.
    cbn [fritzdect after_cmd].
    destruct (fritzdect.power_reply _ _) as [power err].
    eexists _, _, _. split; [reflexivity | ].
    split; [destruct (PrimFloat.ltb _ power); [right; now right | right; now left] | ].
    split; [destruct (PrimFloat.ltb _ power); discriminate | ].
    exists fritzdect.ReqCurrentPower. right. reflexivity.
Qed.

(** X19: in static mode (a standby power below 0) with the switch
    present, [Status] is what [Enabled], asked right after the presence
    check, says: C when on, B otherwise, with the error of [Enabled];
    so a switch whose state reads "inval" gives state B together with
    the not-available error. *)
Theorem FritzDECT_Status_static (fd : FritzDECT) (resp : string) :
  answer "getswitchpresent" fd = (resp, None) ->
  ParseBool resp = (true, None) ->
  PrimFloat.ltb (standbypower fd) 0 = true ->
  let fd1 := after_cmd "getswitchpresent" fd in
  exists on err,
    Enabled fd1 = Done ((on, err), after_cmd "getswitchstate" fd1) /\
    Status fd
    = Done ((if on then api.StatusC else api.StatusB, err),
            after_cmd "getswitchstate" fd1) /\
    (answer "getswitchstate" fd1 = ("inval"%string, None) ->
     on = false /\ err = Some ErrNotAvailable).
Proof.
  intros Hans Hparse Hstatic fd1.
  destruct (Enabled_cases fd1) as (on & err & Hrun & _ & Hinval).
  exists on, err. split; [exact Hrun | ]. split.
  - unfold Status, io_bind at 1. rewrite on_conn_ExecCmd, Hans, Hparse.
    cbn [negb]. unfold io_bind at 1, io_get. cbn [after_cmd standbypower].
    rewrite Hstatic. unfold io_bind. fold (after_cmd "getswitchpresent" fd).
    fold fd1. rewrite Hrun. reflexivity.
  - intros Hstate. apply Hinval; rewrite Hstate; reflexivity.
Qed.

(** a box whose switch is present and whose state reads "inval" *)
Lemma FritzDECT_Status_static_witness :
  exists fd',
    Status {| fritzdect := scenes.undecided_box; standbypower := (-1)%float |}
    = Done ((api.StatusB, Some ErrNotAvailable), fd').
Proof.
  destruct (FritzDECT_Status_static
              {| fritzdect := scenes.undecided_box;
                 standbypower := (-1)%float |}
              "1" eq_refl eq_refl eq_refl)
    as (on & err & _ & Hrun & Hinval).
  destruct (Hinval eq_refl) as [-> ->].
  eexists. exact Hrun.
Defined.

End FritzDECTRange.

(* ================================================================== *)
(** * FritzDECT: ChargedEnergy                                          *)
(* ================================================================== *)

Section FritzDECTChargedEnergy.

Import FritzDECT FritzDECTStats.

Variable Unmarshal : string -> list string * option error.
Variable ParseFloat : string -> float64 * option error.

Lemma before_comma_app (a b : string) :
  before_comma a = a -> before_comma (a ++ String "," b) = a.
Proof.
  induction a as [| c a IH]; cbn; [reflexivity | ].
  destruct (Ascii.eqb c ","); [discriminate | ].
  intros [= Ha]. now rewrite IH.
Qed.

(** X20: [ChargedEnergy] makes one request.  It returns 0 with the
    error when the request or the decoding of the answer fails, and 0
    with the not-available error when the statistics hold no value;
    when they hold exactly one value it panics on the index 1; when
    they hold two or more it parses the text before the first comma of
    the second value and returns it divided by 1000, together with the
    error of the parsing. *)
Theorem ChargedEnergy_cases (fd : FritzDECT) :
  let r := answer "getbasicdevicestats" fd in
  let fd' := after_cmd "getbasicdevicestats" fd in
  (forall e, snd r = Some e ->
     ChargedEnergy Unmarshal ParseFloat fd = Done ((0%float, Some e), fd')) /\
  (snd r = None ->
   (forall e, snd (Unmarshal (fst r)) = Some e ->
      ChargedEnergy Unmarshal ParseFloat fd = Done ((0%float, Some e), fd')) /\
   (Unmarshal (fst r) = ([], None) ->
      ChargedEnergy Unmarshal ParseFloat fd
      = Done ((0%float, Some ErrNotAvailable), fd')) /\
   (forall v, Unmarshal (fst r) = ([v], None) ->
      ChargedEnergy Unmarshal ParseFloat fd = Panic "index out of range") /\
   (forall v0 v1 vs, Unmarshal (fst r) = (v0 :: v1 :: vs, None) ->
      ChargedEnergy Unmarshal ParseFloat fd
      = Done (((fst (ParseFloat (before_comma v1)) / 1000)%float,
               snd (ParseFloat (before_comma v1))), fd'))) /\
  (forall a b, before_comma a = a -> before_comma (a ++ String "," b) = a).
Proof.
  intros r fd'. subst r fd'.
  assert (Hopen : forall resp oe,
            answer "getbasicdevicestats" fd = (resp, oe) ->
            ChargedEnergy Unmarshal ParseFloat fd
            = match oe with
              | Some e =>
                Done ((0%float, Some e), after_cmd "getbasicdevicestats" fd)
              | None =>
                (let '(values, err) := Unmarshal resp in
                 match err with
                 | Some e => io_ret (0%float, Some e)
                 | None =>
                   if len values =? 0
                   then io_ret (0%float, Some ErrNotAvailable)
                   else
                     let* today := io_lift (at_index values 1) in
                     let '(energy, err) := ParseFloat (before_comma today) in
                     io_ret ((energy / 1000)%float, err)
                 end) (after_cmd "getbasicdevicestats" fd)
              end).
  { intros resp oe Hans. unfold ChargedEnergy, io_bind at 1.
    rewrite on_conn_ExecCmd, Hans. destruct oe; reflexivity. }
  destruct (answer "getbasicdevicestats" fd) as [resp oe] eqn:Hans.
  cbn [fst snd]. specialize (Hopen resp oe eq_refl).
  split; [intros e ->; exact Hopen | ].
  split; [ | exact before_comma_app].
  intros ->. repeat split.
  - intros e He. rewrite Hopen. destruct (Unmarshal resp) as [vs err].
    cbn in He. subst err. reflexivity.
  - intros Hu. rewrite Hopen, Hu. reflexivity.
  - intros v Hu. rewrite Hopen, Hu. reflexivity.
  - intros v0 v1 vs Hu. rewrite Hopen, Hu. unfold len. cbn [List.length].
    destruct (Z.eqb_spec (Z.of_nat (S (S (List.length vs)))) 0); [lia | ].
    unfold io_bind, io_lift, at_index. cbn [nth_error bind].
    destruct (ParseFloat (before_comma v1)). reflexivity.
Qed.

End FritzDECTChargedEnergy.

(* ================================================================== *)
(** * The current written by MaxCurrent                                *)
(* ================================================================== *)

Section MaxCurrentWraps.

(** X21: none of the three Amtron drivers checks the range of the
    current it is given: [MaxCurrent] writes the current modulo 65536
    to the amps-config register (amtron_prof.go when it is enabled)
    and returns the error of that write; so a multiple of 65536 is
    written as 0, which is what disabling writes. *)
Theorem MaxCurrent_wraps (c : modbus.Connection) (current : Z) :
  let w := modbus.WriteSingle 1000 (current mod 65536) in
  let err := snd (modbus.device c (modbus.history c) w) in
  (forall curr, exists curr',
     AmtronProfessional.MaxCurrent current
       {| AmtronProfessional.conn := c; AmtronProfessional.curr := curr |}
     = Done (err, {| AmtronProfessional.conn := after_request w c;
                     AmtronProfessional.curr := curr' |})) /\
  (forall stored,
     AmtronProf.MaxCurrent current
       {| AmtronProf.conn := c; AmtronProf.enabled := true;
          AmtronProf.current := stored |}
     = Done (err, {| AmtronProf.conn := after_request w c;
                     AmtronProf.enabled := true;
                     AmtronProf.current := current |})) /\
  AmtronPlain.MaxCurrent current {| AmtronPlain.conn := c |}
  = Done (err, {| AmtronPlain.conn := after_request w c |}) /\
  0 <= current mod 65536 < 65536 /\
  (forall k, (65536 * k) mod 65536 = 0).
Proof.
  intros w err. subst w err.
  split; [ | split; [ | split; [ | split]]].
  - intros curr.
    unfold AmtronProfessional.MaxCurrent, AmtronProfessional.on_conn,
      AmtronProfessional.set_curr, io_bind, io_zoom, io_ret,
      modbus.WriteSingleRegister, modbus.roundtrip, after_request, uint16,
      AmtronProfessional.amtronProfessionalRegAmpsConfig.
    cbn [AmtronProfessional.conn AmtronProfessional.curr].
    change (2 ^ 16) with 65536.
    destruct (modbus.device c (modbus.history c) _) as [bs [e | ]];
      cbn [snd].
    + eexists. reflexivity.
    + destruct (0 <? current mod 65536); eexists; reflexivity.
  - intros stored. rewrite MaxCurrent_enabled. reflexivity.
  - unfold AmtronPlain.MaxCurrent, AmtronPlain.on_conn, io_bind, io_zoom,
      io_ret, modbus.WriteSingleRegister, modbus.roundtrip, after_request,
      uint16, AmtronPlain.amtronRegAmpsConfig.
    cbn [AmtronPlain.conn]. change (2 ^ 16) with 65536.
    destruct (modbus.device c (modbus.history c) _) as [bs e]. reflexivity.
  - apply Z.mod_pos_bound. lia.
  - intros k. rewrite Z.mul_comm. apply Z.mod_mul. lia.
Qed.

End MaxCurrentWraps.

(* ================================================================== *)
(** * More runs on concrete devices                                    *)
(* ================================================================== *)

Section MoreRuns.

(** the statistics hold one value only: the index 1 is out of range *)
Example ChargedEnergy_one_value :
  FritzDECTStats.ChargedEnergy (fun _ => (["12,34"%string], None))
    (fun _ => (0%float, None))
    {| FritzDECT.fritzdect := scenes.charging_box;
       FritzDECT.standbypower := 0%float |}
  = Panic "index out of range".
Proof. reflexivity. Qed.

(** the statistics hold two values: the first number of the second
    value, 2500 Wh, is returned as 2.5 *)
Example ChargedEnergy_today :
  exists fd',
    FritzDECTStats.ChargedEnergy
      (fun _ => (["7,8"%string; "2500,1200,900"%string], None))
      (fun s => if String.eqb s "2500" then (2500%float, None)
                else (0%float, Some (errorString "invalid syntax")))
      {| FritzDECT.fritzdect := scenes.charging_box;
         FritzDECT.standbypower := 0%float |}
    = Done ((2.5%float, None), fd').
Proof. eexists. vm_compute. reflexivity. Qed.

(** power readings of 3000 per phase *)
Example CurrentPower_three_phases :
  exists wb,
    AmtronProfessional.CurrentPower
      {| AmtronProfessional.conn := scenes.three_thousand;
         AmtronProfessional.curr := 6 |}
    = Done ((9000%float, None), wb).
Proof. eexists. vm_compute. reflexivity. Qed.

(** the second read fails: two requests are made, not three *)
Example Currents_second_read_fails :
  exists wb,
    AmtronProf.Currents
      {| AmtronProf.conn := scenes.fading; AmtronProf.enabled := true;
         AmtronProf.current := 6 |}
    = Done ((0%float, 0%float, 0%float, Some (errorString "timeout")), wb) /\
    modbus.history (AmtronProf.conn wb)
    = [modbus.ReadHolding 214 2; modbus.ReadHolding 212 2].
Proof. eexists. split; [vm_compute; reflexivity | reflexivity]. Qed.

(** a status read that delivers one byte *)
Example Status_short_reply :
  AmtronProf.Status
    {| AmtronProf.conn := scenes.short_reply; AmtronProf.enabled := true;
       AmtronProf.current := 6 |}
  = Panic "index out of range".
Proof. reflexivity. Qed.

(** a box drawing 1500 W with a standby power of 5 W is charging *)
Example FritzDECT_Status_charging :
  exists fd',
    FritzDECT.Status
      {| FritzDECT.fritzdect := scenes.charging_box;
         FritzDECT.standbypower := 5%float |}
    = Done ((api.StatusC, None), fd').
Proof. eexists. vm_compute. reflexivity. Qed.

End MoreRuns.
